(** * Search-agent router: a shallow embedding of [main.py]

    The program reads a line, asks a local language model to classify it,
    parses the model's answer into an agent label and a query, cleans the
    query and calls one of four data adapters.  This file embeds the text
    operations, the four adapters, the two model calls, the response parser
    that is live at run time (the second definition of [parse_llm_response],
    which replaces the first when the module is loaded), the first
    definition under a name of its own, and the interactive loop, and proves
    the properties of the routing protocol and of the code around it.

    Text.  A Python [str] is modelled as a [string] whose characters are the
    code points U+0000 to U+00FF: [ascii] is read as one code point, not as
    one byte of an encoding.  On that range [str.strip], [str.lower],
    [str.split], [str.partition], [str.startswith], slicing and [in] are
    exactly the functions below.  [str.upper] and [str.capitalize] leave the
    range on some characters and are taken from the run-time record. *)

From Stdlib Require Import Bool List Arith Lia Ascii String ZArith.
From Stdlib Require Import Floats.PrimFloat.
From Stdlib Require Import Numbers.DecimalString.
Import ListNotations.

Open Scope string_scope.

(** ** Python text operations *)

Module PyStr.

(** [str.isspace] of one character, which is what [str.strip()] removes:
    TAB to CR, FS to US, SPACE, NEL and NBSP. *)
Definition isspace (c : ascii) : bool :=
  let n := nat_of_ascii c in
  (((9 <=? n) && (n <=? 13)) || ((28 <=? n) && (n <=? 32))
   || (n =? 133) || (n =? 160))%nat.

(** [str.lower] of one character: A-Z, and the accented capitals
    U+00C0-U+00DE except the multiplication sign U+00D7. *)
Definition lower_char (c : ascii) : ascii :=
  let n := nat_of_ascii c in
  if (((65 <=? n) && (n <=? 90)) || ((192 <=? n) && (n <=? 214))
      || ((216 <=? n) && (n <=? 222)))%nat
  then ascii_of_nat (n + 32) else c.

(** [s.lower()] *)
Fixpoint lower (s : string) : string :=
  match s with
  | EmptyString => EmptyString
  | String c s' => String (lower_char c) (lower s')
  end.

(** [s.lstrip()] *)
Fixpoint lstrip (s : string) : string :=
  match s with
  | EmptyString => EmptyString
  | String c s' => if isspace c then lstrip s' else s
  end.

(** [s.rstrip()] *)
Fixpoint rstrip (s : string) : string :=
  match s with
  | EmptyString => EmptyString
  | String c s' =>
      match rstrip s' with
      | EmptyString => if isspace c then EmptyString else String c EmptyString
      | r => String c r
      end
  end.

(** [s.strip()] *)
Definition strip (s : string) : string := rstrip (lstrip s).

(** [s.startswith(p)] *)
Definition startswith (p s : string) : bool := String.prefix p s.

(** [sub in s] for two strings *)
Fixpoint contains (sub s : string) : bool :=
  String.prefix sub s ||
  match s with
  | EmptyString => false
  | String _ s' => contains sub s'
  end.

(** [c in s] for a one-character [c] *)
Fixpoint has_char (c : ascii) (s : string) : bool :=
  match s with
  | EmptyString => false
  | String d s' => Ascii.eqb d c || has_char c s'
  end.

(** [s[n:]] for [n >= 0] *)
Fixpoint drop (n : nat) (s : string) : string :=
  match n, s with
  | O, _ => s
  | S _, EmptyString => EmptyString
  | S n', String _ s' => drop n' s'
  end.

(** [s[:n]] for [n >= 0] *)
Fixpoint take (n : nat) (s : string) : string :=
  match n, s with
  | O, _ => EmptyString
  | S _, EmptyString => EmptyString
  | S n', String c s' => String c (take n' s')
  end.

(** [s.split(sep)] for a one-character separator; the list is never
    empty. *)
Fixpoint split (sep : ascii) (s : string) : list string :=
  match s with
  | EmptyString => [EmptyString]
  | String c s' =>
      if Ascii.eqb c sep then EmptyString :: split sep s'
      else match split sep s' with
           | [] => [String c EmptyString]
           | w :: ws => String c w :: ws
           end
  end.

(** [s.partition(sep)] for a one-character separator: the text before the
    first [sep], the separator found ([""] when there is none) and the
    text after it. *)
Fixpoint partition (sep : ascii) (s : string) : string * string * string :=
  match s with
  | EmptyString => (EmptyString, EmptyString, EmptyString)
  | String c s' =>
      if Ascii.eqb c sep then (EmptyString, String sep EmptyString, s')
      else match partition sep s' with
           | (before, EmptyString, _) => (s, EmptyString, EmptyString)
           | (before, found, after) => (String c before, found, after)
           end
  end.

(** [sep.join(parts)] *)
Definition join (sep : string) (parts : list string) : string :=
  String.concat sep parts.

(** Truth value of a string: non-empty. *)
Definition nonempty (s : string) : bool :=
  match s with EmptyString => false | String _ _ => true end.

(** The character class [[a-z\-]] of the coin-identifier pattern. *)
Definition coin_char (c : ascii) : bool :=
  let n := nat_of_ascii c in
  (((97 <=? n) && (n <=? 122)) || (n =? 45))%nat.

(** Longest prefix of characters satisfying [p], and the rest. *)
Fixpoint span (p : ascii -> bool) (s : string) : string * string :=
  match s with
  | EmptyString => (EmptyString, EmptyString)
  | String c s' =>
      if p c then let (w, rest) := span p s' in (String c w, rest)
      else (EmptyString, s)
  end.

(** [re.match(r'^[a-z\-]+$', s)] as a truth value.  The class is matched
    greedily; [$] holds at the end of the text and just before a newline
    that ends the text.  A shorter run cannot help, since the character
    after it is in the class. *)
Definition re_match_coin (s : string) : bool :=
  let (w, rest) := span coin_char s in
  nonempty w &&
  (String.eqb rest EmptyString || String.eqb rest (String "010"%char EmptyString)).

(** [str(n)] for a natural number *)
Definition of_nat (n : nat) : string :=
  NilEmpty.string_of_uint (Nat.to_uint n).

End PyStr.

Import PyStr.

(** ** Python values, exceptions and the outside world *)

Set Warnings "-register-all,-inexact-float".

(** The values [response.json()] can produce.  A dictionary is the list of
    its entries; a key is looked up from the front. *)
Inductive pyval : Type :=
| PNone
| PBool (b : bool)
| PInt (z : Z)
| PFloat (f : float)
| PStr (s : string)
| PList (l : list pyval)
| PDict (d : list (string * pyval)).

(** The three classes the handlers of [main] tell apart. *)
Inductive exn_class := RequestException | KeyErrorClass | OtherException.

(** Exceptions.  [LibraryError] is raised inside [requests] (connection
    failure, timeout, bad status, undecodable body); the others are raised
    by the interpreter on a value of the wrong shape. *)
Inductive exn : Type :=
| LibraryError (c : exn_class) (msg : string)
| AttributeError (v : pyval) (attr : string)
| TypeError (v : pyval) (op : string)
| IndexError (v : pyval)
| KeyError (k : pyval)
| EOFError.

Definition class_of (e : exn) : exn_class :=
  match e with
  | LibraryError c _ => c
  | KeyError _ => KeyErrorClass
  | _ => OtherException
  end.

(** What [requests.get] and [requests.post] return. *)
Record response := {
  status_code : Z;
  (** [response.json()] *)
  json : exn + pyval;
  (** the error [raise_for_status()] raises when the status is 4xx or 5xx *)
  status_error : exn
}.

(** Everything the program takes from outside itself in one turn: the
    environment variables, the two HTTP verbs, and the interpreter's
    renderings of values and exceptions. *)
Record World := {
  getenv : string -> option string;
  http_get : string -> exn + response;
  http_post : string -> pyval -> exn + response;
  (** [str(v)] of a value that is not a string *)
  str_value : pyval -> string;
  (** [str(e)] *)
  str_exn : exn -> string;
  (** [s.upper()] and [s.capitalize()] *)
  upper : string -> string;
  capitalize : string -> string
}.

(** What one run leaves behind, in order.  [EvCall] marks the entry into an
    adapter or into the summarizer; it has no counterpart in the output and
    is recorded so that "is invoked" can be read off the trace. *)
Inductive event : Type :=
| EvInput (prompt : string)
| EvPrint (text : string)
| EvLog (msg : string)
| EvGet (url : string)
| EvPost (url : string) (payload : pyval)
| EvCall (fn : string).

(** A computation emits events and then returns or raises. *)
Definition M (A : Type) : Type := list event * (exn + A).

Definition ret {A} (a : A) : M A := ([], inr a).
Definition raise {A} (e : exn) : M A := ([], inl e).
Definition emit (ev : event) : M unit := ([ev], inr tt).

Definition bind {A B} (m : M A) (k : A -> M B) : M B :=
  match m with
  | (t, inl e) => (t, inl e)
  | (t, inr a) => let (t', r) := k a in ((t ++ t')%list, r)
  end.

(** [try: m  except Exception as e: h e] *)
Definition try_except {A} (m : M A) (h : exn -> M A) : M A :=
  match m with
  | (t, inl e) => let (t', r) := h e in ((t ++ t')%list, r)
  | (t, inr a) => (t, inr a)
  end.

(** A pure step that may raise. *)
Definition lift {A} (r : exn + A) : M A := ([], r).

Declare Scope py_scope.
Delimit Scope py_scope with py.
Notation "x <- m ;; k" := (bind m (fun x => k))
  (at level 61, m at next level, right associativity) : py_scope.
Notation "m ;;; k" := (bind m (fun _ => k))
  (at level 61, right associativity) : py_scope.
Open Scope py_scope.

Definition trace {A} (m : M A) : list event := fst m.
Definition outcome {A} (m : M A) : exn + A := snd m.

(** ** Operations of the interpreter on values *)

(** Truth value of a value: what [if v] and [not v] test. *)
Definition truthy (v : pyval) : bool :=
  match v with
  | PNone => false
  | PBool b => b
  | PInt z => negb (Z.eqb z 0)
  | PFloat f => negb (PrimFloat.eqb f 0%float)
  | PStr s => nonempty s
  | PList l => match l with [] => false | _ :: _ => true end
  | PDict d => match d with [] => false | _ :: _ => true end
  end.

(** A value inside an f-string, or printed: a string is itself. *)
Definition format_value (W : World) (v : pyval) : string :=
  match v with
  | PStr s => s
  | _ => str_value W v
  end.

Fixpoint lookup (k : string) (d : list (string * pyval)) : option pyval :=
  match d with
  | [] => None
  | (k', v) :: d' => if String.eqb k' k then Some v else lookup k d'
  end.

(** [v.get(k, default)] *)
Definition dict_get (v : pyval) (k : string) (default : pyval) : exn + pyval :=
  match v with
  | PDict d => inr (match lookup k d with Some x => x | None => default end)
  | _ => inl (AttributeError v "get")
  end.

(** [v[k]] for a string [k] *)
Definition subscript_key (v : pyval) (k : string) : exn + pyval :=
  match v with
  | PDict d => match lookup k d with
               | Some x => inr x
               | None => inl (KeyError (PStr k))
               end
  | _ => inl (TypeError v "subscript by str")
  end.

(** [v[0]] *)
Definition subscript_zero (v : pyval) : exn + pyval :=
  match v with
  | PList (x :: _) => inr x
  | PList [] => inl (IndexError v)
  | PStr (String c _) => inr (PStr (String c EmptyString))
  | PStr EmptyString => inl (IndexError v)
  | PDict _ => inl (KeyError (PInt 0))
  | _ => inl (TypeError v "subscript by int")
  end.

(** [k in v] for a string [k]: a key of a dictionary, an element of a
    list, a substring of a string. *)
Definition str_in (k : string) (v : pyval) : exn + bool :=
  match v with
  | PDict d => inr (match lookup k d with Some _ => true | None => false end)
  | PList l =>
      inr (existsb (fun x => match x with PStr s => String.eqb s k | _ => false end) l)
  | PStr s => inr (contains k s)
  | _ => inl (TypeError v "in")
  end.

Fixpoint chars (s : string) : list pyval :=
  match s with
  | EmptyString => []
  | String c s' => PStr (String c EmptyString) :: chars s'
  end.

(** The values [for item in v[:3]] runs over. *)
Definition first_three (v : pyval) : exn + list pyval :=
  match v with
  | PList l => inr (firstn 3 l)
  | PStr s => inr (chars (take 3 s))
  | _ => inl (TypeError v "slice")
  end.

(** ** The HTTP verbs and the log *)

Definition requests_get (W : World) (url : string) : M response :=
  emit (EvGet url) ;;; lift (http_get W url).

Definition requests_post (W : World) (url : string) (payload : pyval) : M response :=
  emit (EvPost url payload) ;;; lift (http_post W url payload).

(** [response.raise_for_status()] *)
Definition raise_for_status (r : response) : M unit :=
  if ((400 <=? status_code r) && (status_code r <? 600))%Z
  then raise (status_error r) else ret tt.

Definition logging_exception (msg : string) : M unit := emit (EvLog msg).
Definition logging_error (msg : string) : M unit := emit (EvLog msg).
Definition print (text : string) : M unit := emit (EvPrint text).

Definition nl : string := String (ascii_of_nat 10) EmptyString.
Definition dquote : string := String (ascii_of_nat 34) EmptyString.
Definition degree : string := String (ascii_of_nat 176) EmptyString.

(** ** The adapters: class [SearchAgents] *)

Definition invalid_format : string :=
  "Invalid cryptocurrency format - use names like 'bitcoin' not symbols.".

Definition coin_url (coin_id : string) : string :=
  "https://api.coingecko.com/api/v3/simple/price?ids="
  ++ coin_id ++ "&vs_currencies=usd".

Definition crypto_asset (W : World) (query : string) : M string :=
  emit (EvCall "crypto_asset") ;;;
  try_except
    (let coin_id := lower (strip query) in
     if negb (re_match_coin coin_id) then ret invalid_format
     else
       let url := coin_url coin_id in
       response <- requests_get W url ;;
       if negb (status_code response =? 200)%Z then
         body <- lift (json response) ;;
         error_message <- lift (dict_get body "error" (PStr "Unknown error")) ;;
         ret ("Crypto API Error: " ++ format_value W error_message)
       else
         data <- lift (json response) ;;
         present <- lift (str_in coin_id data) ;;
         if negb present then ret ("Unknown cryptocurrency: " ++ coin_id)
         else
           entry <- lift (subscript_key data coin_id) ;;
           price <- lift (dict_get entry "usd" PNone) ;;
           match price with
           | PNone => ret ("Price data not available for " ++ coin_id)
           | _ => ret (capitalize W coin_id ++ ": $" ++ format_value W price)
           end)
    (fun e =>
       logging_exception "Error fetching cryptocurrency data" ;;;
       ret ("Crypto Error: " ++ str_exn W e)).

Definition stock_asset (W : World) (symbol : string) : M string :=
  emit (EvCall "stock_asset") ;;;
  try_except
    (let symbol := upper W (strip symbol) in
     match getenv W "ALPHAVANTAGE_API_KEY" with
     | None | Some EmptyString => ret "Stock API Error: Missing API key."
     | Some api_key =>
         let url := "https://www.alphavantage.co/query?function=GLOBAL_QUOTE&symbol="
                    ++ symbol ++ "&apikey=" ++ api_key in
         response <- requests_get W url ;;
         data <- lift (json response) ;;
         quote <- lift (dict_get data "Global Quote" PNone) ;;
         if negb (truthy quote) then
           ret ("Stock data not available for " ++ symbol ++ ".")
         else
           has_price <- lift (str_in "05. price" quote) ;;
           if negb has_price then
             ret ("Stock data not available for " ++ symbol ++ ".")
           else
             price <- lift (subscript_key quote "05. price") ;;
             ret (symbol ++ ": $" ++ format_value W price)
     end)
    (fun e =>
       logging_exception "Error fetching stock data" ;;;
       ret ("Stock API Error: " ++ str_exn W e)).

(** [v.capitalize()]: only a string has the method. *)
Definition capitalize_value (W : World) (v : pyval) : exn + string :=
  match v with
  | PStr s => inr (capitalize W s)
  | _ => inl (AttributeError v "capitalize")
  end.

Definition weather_asset (W : World) (location : string) : M string :=
  emit (EvCall "weather_asset") ;;;
  try_except
    (let location := strip location in
     match getenv W "OPENWEATHER_API_KEY" with
     | None | Some EmptyString => ret "Weather Error: Missing API key."
     | Some api_key =>
         let url := "http://api.openweathermap.org/data/2.5/weather?q="
                    ++ location ++ "&appid=" ++ api_key ++ "&units=metric" in
         response <- requests_get W url ;;
         if negb (status_code response =? 200)%Z then
           body <- lift (json response) ;;
           error_message <- lift (dict_get body "message" (PStr "Unknown error")) ;;
           ret ("Weather Error: " ++ format_value W error_message)
         else
           data <- lift (json response) ;;
           main_part <- lift (dict_get data "main" (PDict [])) ;;
           temp <- lift (dict_get main_part "temp" PNone) ;;
           weather_part <- lift (dict_get data "weather" (PList [PDict []])) ;;
           first <- lift (subscript_zero weather_part) ;;
           description <- lift (dict_get first "description" (PStr "")) ;;
           weather_desc <- lift (capitalize_value W description) ;;
           city_name <- lift (dict_get data "name" (PStr location)) ;;
           if match temp with PNone => true | _ => false end
              || negb (nonempty weather_desc)
           then ret "Incomplete weather data received."
           else ret (format_value W city_name ++ ": " ++ format_value W temp
                     ++ degree ++ "C, " ++ weather_desc)
     end)
    (fun e =>
       logging_exception "Error fetching weather data" ;;;
       ret ("Weather Error: " ++ str_exn W e)).

(** One entry of the list [web_asset] returns: the dictionary with the
    three keys the comprehension always sets. *)
Record search_result := {
  title : pyval;
  link : pyval;
  snippet : pyval
}.

Definition search_result_of (item : pyval) : exn + search_result :=
  match dict_get item "title" (PStr "No Title") with
  | inl e => inl e
  | inr t =>
      match dict_get item "link" (PStr "No Link") with
      | inl e => inl e
      | inr l =>
          match dict_get item "snippet" (PStr "") with
          | inl e => inl e
          | inr s => inr {| title := t; link := l; snippet := s |}
          end
      end
  end.

(** The list comprehension: the first item that raises ends it. *)
Fixpoint search_results_of (items : list pyval) : exn + list search_result :=
  match items with
  | [] => inr []
  | item :: rest =>
      match search_result_of item with
      | inl e => inl e
      | inr r =>
          match search_results_of rest with
          | inl e => inl e
          | inr rs => inr (r :: rs)
          end
      end
  end.

(** [web_asset] returns a string (an error message) or a list of results:
    [inl] and [inr]. *)
Definition web_asset (W : World) (query : string) : M (string + list search_result) :=
  emit (EvCall "web_asset") ;;;
  try_except
    (match getenv W "GOOGLE_API_KEY", getenv W "SEARCH_ENGINE_ID" with
     | Some (String _ _ as google_api_key), Some (String _ _ as search_engine_id) =>
         let url := "https://www.googleapis.com/customsearch/v1?key="
                    ++ google_api_key ++ "&cx=" ++ search_engine_id
                    ++ "&q=" ++ query in
         response <- requests_get W url ;;
         results <- lift (json response) ;;
         items <- lift (dict_get results "items" (PList [])) ;;
         shown <- lift (first_three items) ;;
         found <- lift (search_results_of shown) ;;
         ret (inr found)
     | _, _ =>
         ret (inl "Web Search Error: Missing Google API key or Search Engine ID.")
     end)
    (fun e =>
       logging_exception "Error during web search" ;;;
       ret (inl ("Web Search Error: " ++ str_exn W e))).

(** ** The two calls to the language model *)

Definition llm_endpoint : string := "http://localhost:1234/v1/chat/completions".

Definition system_msg : string :=
  "You are a routing assistant. Format responses STRICTLY as:" ++ nl ++
  "    [agent_type] query" ++ nl ++
  nl ++
  "    Available agents:" ++ nl ++
  "    - crypto_asset: Cryptocurrency prices (e.g., " ++ dquote
    ++ "[crypto_asset] ethereum" ++ dquote ++ ")" ++ nl ++
  "    - stock_asset: Stock prices (e.g., " ++ dquote
    ++ "[stock_asset] tsla" ++ dquote ++ ")" ++ nl ++
  "    - weather_asset: Weather (e.g., " ++ dquote
    ++ "[weather_asset] tokyo" ++ dquote ++ ")" ++ nl ++
  "    - web_asset: Web searches (e.g., " ++ dquote
    ++ "[web_asset] pixel 9 reviews" ++ dquote ++ ")" ++ nl ++
  nl ++
  "    If unsure, provide a general answer. NEVER include text outside brackets!".

(** The body of a chat-completion request. *)
Definition chat_payload (system user : string) (temperature : float)
    (max_tokens : Z) : pyval :=
  PDict [("messages",
          PList [PDict [("role", PStr "system"); ("content", PStr system)];
                 PDict [("role", PStr "user"); ("content", PStr user)]]);
         ("temperature", PFloat temperature);
         ("max_tokens", PInt max_tokens)].

(** [response.json()["choices"][0]["message"]["content"]] *)
Definition message_content (r : response) : M pyval :=
  body <- lift (json r) ;;
  choices <- lift (subscript_key body "choices") ;;
  first <- lift (subscript_zero choices) ;;
  message <- lift (subscript_key first "message") ;;
  lift (subscript_key message "content").

Definition query_llm (W : World) (prompt : string) : M pyval :=
  emit (EvCall "query_llm") ;;;
  try_except
    (response <- requests_post W llm_endpoint
                   (chat_payload system_msg prompt 0.1%float 100) ;;
     raise_for_status response ;;;
     content <- message_content response ;;
     ret content)
    (fun e =>
       logging_exception "LLM query error" ;;;
       ret (PStr ("LLM Error: " ++ str_exn W e))).

Definition summarize_results (W : World) (query : string)
    (results : list search_result) : M pyval :=
  emit (EvCall "summarize_results") ;;;
  let context :=
    join nl (map (fun r => format_value W (title r) ++ ": "
                           ++ format_value W (snippet r)) results) in
  try_except
    (response <- requests_post W llm_endpoint
                   (chat_payload
                      ("Summarize web results about " ++ query
                       ++ " in 3 concise points")
                      context 0.3%float 300) ;;
     raise_for_status response ;;;
     message_content response)
    (fun e =>
       logging_exception "Summarization error" ;;;
       ret (PStr ("Summarization Error: " ++ str_exn W e))).

(** ** The response parser

    The module defines [parse_llm_response] twice; the second definition
    (below [main]) is the one bound to the name when [main] runs. *)

(** The loop over the four labels, without brackets. *)
Fixpoint parse_fallback (response : string) (agents : list string)
  : option string * pyval :=
  match agents with
  | [] => (None, PStr response)
  | agent :: rest =>
      if startswith (agent ++ " ") (lower response)
      then (Some agent, PStr (strip (drop (String.length agent + 1) response)))
      else parse_fallback response rest
  end.

(** The labels the loop runs over, in its order. *)
Definition labels : list string :=
  ["crypto_asset"; "stock_asset"; "weather_asset"; "web_asset"].

(** The [try] block.  Only a string has [startswith]. *)
Definition parse_body (response : pyval) : M (option string * pyval) :=
  match response with
  | PStr r =>
      if startswith "[" r && has_char "]" r then
        let '(agent_part, _, query) := partition "]" r in
        let agent_type := strip (drop 1 agent_part) in
        ret (Some agent_type, PStr (strip query))
      else
        ret (parse_fallback r labels)
  | _ => raise (AttributeError response "startswith")
  end.

Definition parse_llm_response (W : World) (response : pyval)
  : M (option string * pyval) :=
  try_except (parse_body response)
    (fun e =>
       logging_error ("Parse error: " ++ str_exn W e) ;;;
       ret (None, response)).

(** ** The interactive loop *)

Definition valid_agents : list string :=
  ["crypto_asset"; "stock_asset"; "weather_asset"; "web_asset"].

(** [query.split('(')[0].strip().lower() if query else ""] on a string *)
Definition cleaned (query : string) : string :=
  if nonempty query
  then lower (strip (nth 0 (split "(" query) EmptyString))
  else EmptyString.

(** The same line on any value the parser can hand over: a value that is
    true and is not a string has no [split]. *)
Definition clean_query (query : pyval) : M string :=
  match query with
  | PStr q => ret (cleaned q)
  | _ => if truthy query then raise (AttributeError query "split")
         else ret EmptyString
  end.

(** [getattr(agents, agent_type)].  [dispatch] reaches it only after the
    membership test and the [web_asset] test, that is with one of the three
    labels below ([getattr_agents_defined]). *)
Definition getattr_agents (W : World) (agent_type : string)
  : M (string -> M string) :=
  if String.eqb agent_type "crypto_asset" then ret (crypto_asset W)
  else if String.eqb agent_type "stock_asset" then ret (stock_asset W)
  else if String.eqb agent_type "weather_asset" then ret (weather_asset W)
  else raise (AttributeError (PStr agent_type) "SearchAgents").

(** The numbered list of sources, [enumerate(results, 1)]. *)
Fixpoint print_sources (W : World) (idx : nat) (results : list search_result)
  : M unit :=
  match results with
  | [] => ret tt
  | result :: rest =>
      print (of_nat idx ++ ". " ++ format_value W (title result) ++ nl
             ++ "   " ++ format_value W (link result)) ;;;
      print_sources W (S idx) rest
  end.

(** The [try] block of the loop body. *)
Definition dispatch (W : World) (agent_type query : string) : M unit :=
  if negb (existsb (String.eqb agent_type) valid_agents) then
    print ("Assistant: Unknown agent type: " ++ agent_type)
  else if String.eqb agent_type "web_asset" then
    results <- web_asset W query ;;
    match results with
    | inl message => print ("Assistant: " ++ message)
    | inr [] => print "Assistant: No relevant results found."
    | inr found =>
        summary <- summarize_results W query found ;;
        print ("Assistant: Here's what I found about " ++ query ++ ":") ;;;
        print (format_value W summary) ;;;
        print (nl ++ "Sources:") ;;;
        print_sources W 1 found
    end
  else
    method <- getattr_agents W agent_type ;;
    result <- method query ;;
    print ("Assistant: " ++ result).

(** The three [except] clauses, tried in order. *)
Definition turn_handler (W : World) (e : exn) : M unit :=
  match class_of e with
  | RequestException => print ("Assistant: Network error - " ++ str_exn W e)
  | KeyErrorClass =>
      print ("Assistant: Data parsing error - missing " ++ str_exn W e)
  | OtherException => print ("Assistant: Unexpected error - " ++ str_exn W e)
  end.

(** The loop body from the parsed answer on. *)
Definition respond (W : World) (llm_response : pyval)
    (agent_type : option string) (query : pyval) : M unit :=
  query <- clean_query query ;;
  match agent_type with
  | Some (String _ _ as agent_type) =>
      try_except (dispatch W agent_type query) (turn_handler W)
  | _ => print ("Assistant: " ++ format_value W llm_response)
  end.

(** The loop body from the model's answer on: parse, clean, respond. *)
Definition route (W : World) (llm_response : pyval) : M unit :=
  parsed <- parse_llm_response W llm_response ;;
  let '(agent_type, query) := parsed in
  respond W llm_response agent_type query.

(** One turn, for an input line that is not [exit] or [quit]. *)
Definition turn (W : World) (user_input : string) : M unit :=
  llm_response <- query_llm W user_input ;;
  route W llm_response.

(** The loop, on the lines the user will type.  Reading past the last line
    raises [EOFError]. *)
Fixpoint main_loop (W : World) (lines : list string) : M unit :=
  match lines with
  | [] => emit (EvInput (nl ++ "User: ")) ;;; raise EOFError
  | line :: rest =>
      emit (EvInput (nl ++ "User: ")) ;;;
      let user_input := strip line in
      if existsb (String.eqb (lower user_input)) ["exit"; "quit"] then ret tt
      else turn W user_input ;;; main_loop W rest
  end.

Definition main (W : World) (lines : list string) : M unit :=
  print "Search Agent System Initialized. Type 'exit' to quit." ;;;
  main_loop W lines.

(** ** The first definition of the parser

    The module first defines [parse_llm_response] with a regular
    expression; the definition above replaces it before [main] runs.  The
    text is embedded here under another name, to compare the two. *)

(** The class [\w] on the modelled range: letters, digits (the superscripts
    and fractions included) and the underscore. *)
Definition word_char (c : ascii) : bool :=
  let n := nat_of_ascii c in
  (((48 <=? n) && (n <=? 57)) || ((65 <=? n) && (n <=? 90)) || (n =? 95)
   || ((97 <=? n) && (n <=? 122)) || (n =? 170)
   || ((178 <=? n) && (n <=? 179)) || (n =? 181)
   || ((185 <=? n) && (n <=? 186)) || ((188 <=? n) && (n <=? 190))
   || ((192 <=? n) && (n <=? 214)) || ((216 <=? n) && (n <=? 246))
   || (248 <=? n))%nat.

(** [.] matches every character but the newline. *)
Definition dot_char (c : ascii) : bool := negb (Ascii.eqb c "010").

(** [(.+)$] at the start of [s]: the run of [.] is taken whole, since a
    shorter run is followed by a character that is not the end. *)
Definition dot_plus_end (s : string) : option string :=
  let (d, rest) := span dot_char s in
  if nonempty d
     && (String.eqb rest EmptyString
         || String.eqb rest (String "010"%char EmptyString))
  then Some d else None.

(** [\s*(.+)$] at the start of [s]: white space is consumed first, and
    given back one character at a time when the rest does not match. *)
Fixpoint match_tail (s : string) : option string :=
  match s with
  | EmptyString => None
  | String c s' =>
      if isspace c then
        match match_tail s' with
        | Some g => Some g
        | None => dot_plus_end s
        end
      else dot_plus_end s
  end.

(** [re.match(r'^\[(\w+)\]\s*(.+)$', s)]: the two groups, or [None]. *)
Definition re_match_bracket (s : string) : option (string * string) :=
  match s with
  | String c s1 =>
      if Ascii.eqb c "[" then
        let (word, s2) := span word_char s1 in
        match s2 with
        | String d s3 =>
            if nonempty word && Ascii.eqb d "]" then
              match match_tail s3 with
              | Some g => Some (word, g)
              | None => None
              end
            else None
        | EmptyString => None
        end
      else None
  | EmptyString => None
  end.

(** The first [parse_llm_response]; it has no [try]. *)
Definition parse_llm_response_first (response : pyval)
  : M (option string * pyval) :=
  match response with
  | PStr r =>
      match re_match_bracket (strip r) with
      | Some (agent_type, query) => ret (Some agent_type, PStr query)
      | None => ret (None, response)
      end
  | _ => raise (AttributeError response "strip")
  end.

(** ** Two sample worlds *)

Definition sample_str_exn (e : exn) : string :=
  match e with
  | LibraryError _ msg => msg
  | AttributeError _ attr => "no attribute " ++ attr
  | TypeError _ op => "bad operand for " ++ op
  | IndexError _ => "index out of range"
  | KeyError _ => "missing key"
  | EOFError => "EOF when reading a line"
  end.

(** No credentials, and every request fails to connect. *)
Definition offline : World := {|
  getenv := fun _ => None;
  http_get := fun _ => inl (LibraryError RequestException "connection refused");
  http_post := fun _ _ => inl (LibraryError RequestException "connection refused");
  str_value := fun _ => "<value>";
  str_exn := sample_str_exn;
  upper := fun s => s;
  capitalize := fun s => s
|}.

(** Credentials present; every request is answered 200 with [{}]. *)
Definition empty_search : World := {|
  getenv := fun _ => Some "key";
  http_get := fun _ =>
    inr {| status_code := 200; json := inr (PDict []);
           status_error := LibraryError RequestException "bad status" |};
  http_post := fun _ _ =>
    inr {| status_code := 200; json := inr (PDict []);
           status_error := LibraryError RequestException "bad status" |};
  str_value := fun _ => "<value>";
  str_exn := sample_str_exn;
  upper := fun s => s;
  capitalize := fun s => s
|}.

(** [str.upper] and [str.capitalize] on unaccented text, for the sample
    worlds below. *)
Definition sample_upper_char (c : ascii) : ascii :=
  let n := nat_of_ascii c in
  if ((97 <=? n) && (n <=? 122))%nat then ascii_of_nat (n - 32) else c.

Fixpoint sample_upper (s : string) : string :=
  match s with
  | EmptyString => EmptyString
  | String c s' => String (sample_upper_char c) (sample_upper s')
  end.

Definition sample_capitalize (s : string) : string :=
  match s with
  | EmptyString => EmptyString
  | String c s' => String (sample_upper_char c) (lower s')
  end.

(** Every request is answered 200: a price for bitcoin to GET, a routed
    answer to POST. *)
Definition online : World := {|
  getenv := fun _ => Some "key";
  http_get := fun _ =>
    inr {| status_code := 200;
           json := inr (PDict [("bitcoin", PDict [("usd", PInt 50000)])]);
           status_error := LibraryError RequestException "bad status" |};
  http_post := fun _ _ =>
    inr {| status_code := 200;
           json := inr (PDict
                          [("choices",
                            PList [PDict
                                     [("message",
                                       PDict [("content",
                                               PStr "[crypto_asset] Bitcoin (BTC)")])]])]);
           status_error := LibraryError RequestException "bad status" |};
  str_value := fun _ => "50000";
  str_exn := sample_str_exn;
  upper := sample_upper;
  capitalize := sample_capitalize
|}.

(** The model answers with the number 5 instead of a text. *)
Definition numeric_answer : World := {|
  getenv := fun _ => None;
  http_get := fun _ => inl (LibraryError RequestException "connection refused");
  http_post := fun _ _ =>
    inr {| status_code := 200;
           json := inr (PDict
                          [("choices",
                            PList [PDict
                                     [("message",
                                       PDict [("content", PInt 5)])]])]);
           status_error := LibraryError RequestException "bad status" |};
  str_value := fun _ => "5";
  str_exn := sample_str_exn;
  upper := fun s => s;
  capitalize := fun s => s
|}.


(** Credentials present; a search is answered with four items, some of
    them without a title or a link. *)
Definition four_items : World := {|
  getenv := fun _ => Some "key";
  http_get := fun _ =>
    inr {| status_code := 200;
           json := inr (PDict
                          [("items",
                            PList [PDict [("title", PStr "A"); ("link", PStr "a")];
                                   PDict [("snippet", PStr "b")];
                                   PDict [("title", PStr "C")];
                                   PDict [("title", PStr "D")]])]);
           status_error := LibraryError RequestException "bad status" |};
  http_post := fun _ _ => inl (LibraryError RequestException "timed out");
  str_value := fun _ => "<value>";
  str_exn := sample_str_exn;
  upper := fun s => s;
  capitalize := fun s => s
|}.

(** Credentials present; every GET is answered 200 with one body that
    holds a stock quote and a weather report. *)
Definition market : World := {|
  getenv := fun _ => Some "key";
  http_get := fun _ =>
    inr {| status_code := 200;
           json := inr (PDict
                          [("Global Quote",
                            PDict [("01. symbol", PStr "TSLA");
                                   ("05. price", PStr "250.10")]);
                           ("main", PDict [("temp", PInt 21)]);
                           ("weather",
                            PList [PDict [("description", PStr "clear sky")]]);
                           ("name", PStr "Tokyo")]);
           status_error := LibraryError RequestException "bad status" |};
  http_post := fun _ _ => inl (LibraryError RequestException "timed out");
  str_value := fun _ => "21";
  str_exn := sample_str_exn;
  upper := sample_upper;
  capitalize := sample_capitalize
|}.

(** ** Predicates the statements use *)

(** Some character of [s] is not white space. *)
Fixpoint has_visible (s : string) : bool :=
  match s with
  | EmptyString => false
  | String c s' => negb (isspace c) || has_visible s'
  end.

(** [s] does not begin with white space. *)
Definition starts_clean (s : string) : bool :=
  match s with
  | EmptyString => true
  | String c _ => negb (isspace c)
  end.

(** [s] does not end with white space. *)
Fixpoint ends_clean (s : string) : bool :=
  match s with
  | EmptyString => true
  | String c EmptyString => negb (isspace c)
  | String _ s' => ends_clean s'
  end.

Fixpoint all_chars (p : ascii -> bool) (s : string) : bool :=
  match s with
  | EmptyString => true
  | String c s' => p c && all_chars p s'
  end.

(** Some character before the first ['('] of [s] is not white space. *)
Fixpoint visible_before_paren (s : string) : bool :=
  match s with
  | EmptyString => false
  | String c s' =>
      if Ascii.eqb c "(" then false
      else negb (isspace c) || visible_before_paren s'
  end.

(** A non-empty run of the letters a-z and the hyphen. *)
Definition coin_ident (s : string) : bool :=
  nonempty s && all_chars coin_char s.

(** What the web adapter leaves in the trace: its own entry, requests with
    GET and log lines. *)
Definition web_event (ev : event) : bool :=
  match ev with
  | EvCall fn => String.eqb fn "web_asset"
  | EvGet _ | EvLog _ => true
  | _ => false
  end.

(** The computation returns: no exception leaves it. *)
Definition returns {A} (m : M A) : Prop := exists a, outcome m = inr a.

Definition is_get (ev : event) : bool :=
  match ev with EvGet _ => true | _ => false end.

Definition is_post (ev : event) : bool :=
  match ev with EvPost _ _ => true | _ => false end.

Definition is_print (ev : event) : bool :=
  match ev with EvPrint _ => true | _ => false end.

(** How many events of a trace satisfy [p]. *)
Definition count (p : event -> bool) (t : list event) : nat :=
  List.length (filter p t).

(** The environment variable is unset or empty, which [not api_key]
    tests. *)
Definition no_key (W : World) (name : string) : bool :=
  match getenv W name with
  | Some (String _ _) => false
  | _ => true
  end.

(** The line ends the loop. *)
Definition is_exit (line : string) : bool :=
  existsb (String.eqb (lower (strip line))) ["exit"; "quit"].

(** A well-formed chat completion whose message content is [content]. *)
Definition chat_body (body content : pyval) : Prop :=
  exists first rest message,
    subscript_key body "choices" = inr (PList (first :: rest)) /\
    subscript_key first "message" = inr message /\
    subscript_key message "content" = inr content.

Definition is_str (v : pyval) : bool :=
  match v with PStr _ => true | _ => false end.

(** The request [query_llm] sends for a prompt. *)
Definition classify_payload (prompt : string) : pyval :=
  chat_payload system_msg prompt 0.1%float 100.

(** The status is one [raise_for_status] accepts. *)
Definition status_ok (r : response) : bool :=
  negb ((400 <=? status_code r) && (status_code r <? 600))%Z.

(** The classification request fails with [e]: it raises [e], or it is
    answered with a 4xx or 5xx status whose error is [e]. *)
Definition llm_fails (W : World) (prompt : string) (e : exn) : Prop :=
  http_post W llm_endpoint (classify_payload prompt) = inl e \/
  exists resp,
    http_post W llm_endpoint (classify_payload prompt) = inr resp /\
    status_ok resp = false /\ status_error resp = e.

(** The computation emits nothing. *)
Definition quiet {A} (m : M A) : Prop := trace m = [].


(** The line printed for the result numbered [i]. *)
Definition source_line (W : World) (entry : nat * search_result) : event :=
  EvPrint (of_nat (fst entry) ++ ". " ++ format_value W (title (snd entry))
           ++ nl ++ "   " ++ format_value W (link (snd entry))).

(** The request [summarize_results] sends. *)
Definition summary_payload (W : World) (query : string)
    (results : list search_result) : pyval :=
  chat_payload ("Summarize web results about " ++ query ++ " in 3 concise points")
    (join nl (map (fun r => format_value W (title r) ++ ": "
                            ++ format_value W (snippet r)) results))
    0.3%float 300.

(** The URL of the stock quote request. *)
Definition stock_url (symbol api_key : string) : string :=
  "https://www.alphavantage.co/query?function=GLOBAL_QUOTE&symbol="
  ++ symbol ++ "&apikey=" ++ api_key.

(** The URL of the weather request. *)
Definition weather_url (location api_key : string) : string :=
  "http://api.openweathermap.org/data/2.5/weather?q="
  ++ location ++ "&appid=" ++ api_key ++ "&units=metric".

(** * Properties *)

Ltac each_char c :=
  destruct c as [[] [] [] [] [] [] [] []]; vm_compute; reflexivity.


Example strip_ex : strip (" " ++ nl ++ " Bit Coin " ++ nl) = "Bit Coin".
Proof. reflexivity. Qed.

Example split_ex :
  split "(" "bitcoin (approx) (x)" = ["bitcoin "; "approx) "; "x)"].
Proof. reflexivity. Qed.

Example partition_ex : partition "]" "[a]b] c" = ("[a", "]", "b] c").
Proof. reflexivity. Qed.

Example partition_none_ex : partition "]" "[abc" = ("[abc", "", "").
Proof. reflexivity. Qed.

Example re_match_ex :
  map re_match_coin ["bitcoin-cash"; "btc"; "BTC"; "btc$"; ""; "-"; "btc" ++ nl]
  = [true; true; false; false; false; true; true].
Proof. reflexivity. Qed.

Example cleaned_ex : cleaned "bitcoin (approx)" = "bitcoin".
Proof. reflexivity. Qed.

Example parse_non_string_ex :
  parse_llm_response offline PNone
  = ([EvLog "Parse error: no attribute startswith"], inr (None, PNone)).
Proof. reflexivity. Qed.

Example route_stock_ex :
  route offline (PStr "[stock_asset] TSLA (Tesla)")
  = ([EvCall "stock_asset";
      EvPrint "Assistant: Stock API Error: Missing API key."], inr tt).
Proof. reflexivity. Qed.

Example main_quit_ex :
  main offline [" QUIT "; "never read"]
  = ([EvPrint "Search Agent System Initialized. Type 'exit' to quit.";
      EvInput (nl ++ "User: ")], inr tt).
Proof. reflexivity. Qed.

(** ** Facts about characters

    Each is a check over the 256 characters. *)

Lemma isspace_lower_char (c : ascii) : isspace (lower_char c) = isspace c.
Proof. each_char c. Qed.

Lemma lower_char_idem (c : ascii) : lower_char (lower_char c) = lower_char c.
Proof. each_char c. Qed.

Lemma lower_char_paren (c : ascii) :
  Ascii.eqb (lower_char c) "(" = Ascii.eqb c "(".
Proof. each_char c. Qed.

Lemma coin_char_visible (c : ascii) : coin_char c && isspace c = false.
Proof. each_char c. Qed.

(** ** Facts about [lower], [strip] and [split] *)

Lemma lower_idem (s : string) : lower (lower s) = lower s.
Proof.
  induction s as [|c s IH]; simpl; [reflexivity|].
  now rewrite lower_char_idem, IH.
Qed.

Lemma nonempty_lower (s : string) : nonempty (lower s) = nonempty s.
Proof. now destruct s. Qed.

Lemma lstrip_lower (s : string) : lstrip (lower s) = lower (lstrip s).
Proof.
  induction s as [|c s IH]; simpl; [reflexivity|].
  rewrite isspace_lower_char. now destruct (isspace c).
Qed.

Lemma rstrip_lower (s : string) : rstrip (lower s) = lower (rstrip s).
Proof.
  induction s as [|c s IH]; simpl; [reflexivity|].
  rewrite IH, isspace_lower_char.
  destruct (rstrip s); simpl; [now destruct (isspace c)|reflexivity].
Qed.

Lemma strip_lower (s : string) : strip (lower s) = lower (strip s).
Proof. unfold strip. now rewrite lstrip_lower, rstrip_lower. Qed.

Lemma lstrip_starts_clean (s : string) : starts_clean (lstrip s) = true.
Proof.
  induction s as [|c s IH]; simpl; [reflexivity|].
  destruct (isspace c) eqn:E; [exact IH|]. simpl. now rewrite E.
Qed.

Lemma lstrip_clean (s : string) : starts_clean s = true -> lstrip s = s.
Proof.
  destruct s as [|c s]; simpl; [reflexivity|].
  now destruct (isspace c).
Qed.

Lemma rstrip_starts_clean (s : string) :
  starts_clean s = true -> starts_clean (rstrip s) = true.
Proof.
  destruct s as [|c s]; simpl; [reflexivity|].
  intros H. destruct (rstrip s); simpl; [|exact H].
  destruct (isspace c) eqn:E; [discriminate|]. simpl. now rewrite E.
Qed.

Lemma rstrip_idem (s : string) : rstrip (rstrip s) = rstrip s.
Proof.
  induction s as [|c s IH]; simpl; [reflexivity|].
  destruct (rstrip s) as [|d r] eqn:E.
  - destruct (isspace c) eqn:Ec; simpl; [reflexivity|now rewrite Ec].
  - change (rstrip (String c (String d r)))
      with (match rstrip (String d r) with
            | EmptyString => if isspace c then EmptyString else String c EmptyString
            | r' => String c r'
            end).
    now rewrite IH.
Qed.

Lemma strip_idem (s : string) : strip (strip s) = strip s.
Proof.
  unfold strip.
  rewrite (lstrip_clean (rstrip (lstrip s))).
  - apply rstrip_idem.
  - apply rstrip_starts_clean, lstrip_starts_clean.
Qed.

Lemma rstrip_ends_clean (s : string) : ends_clean (rstrip s) = true.
Proof.
  induction s as [|c s IH]; simpl; [reflexivity|].
  destruct (rstrip s) as [|d r] eqn:E.
  - destruct (isspace c) eqn:Ec; simpl; [reflexivity|now rewrite Ec].
  - exact IH.
Qed.

Lemma ends_clean_lower (s : string) : ends_clean (lower s) = ends_clean s.
Proof.
  induction s as [|c s IH]; simpl; [reflexivity|].
  destruct s as [|d s]; simpl; [now rewrite isspace_lower_char|exact IH].
Qed.

Lemma nonempty_rstrip (s : string) : nonempty (rstrip s) = has_visible s.
Proof.
  induction s as [|c s IH]; simpl; [reflexivity|].
  rewrite <- IH.
  destruct (rstrip s); simpl; [now destruct (isspace c)|].
  now rewrite orb_true_r.
Qed.

Lemma has_visible_lstrip (s : string) : has_visible (lstrip s) = has_visible s.
Proof.
  induction s as [|c s IH]; simpl; [reflexivity|].
  destruct (isspace c) eqn:E; simpl; [exact IH|now rewrite E].
Qed.

Lemma nonempty_strip (s : string) : nonempty (strip s) = has_visible s.
Proof. unfold strip. now rewrite nonempty_rstrip, has_visible_lstrip. Qed.

(** The first piece of a split holds no separator. *)
Lemma split_head_no_sep (sep : ascii) (s : string) :
  has_char sep (nth 0 (split sep s) EmptyString) = false.
Proof.
  induction s as [|c s IH]; simpl; [reflexivity|].
  destruct (Ascii.eqb c sep) eqn:E; simpl; [reflexivity|].
  destruct (split sep s) as [|w ws]; simpl in *; now rewrite E.
Qed.

(** A text without the separator is its own single piece. *)
Lemma split_no_sep (sep : ascii) (s : string) :
  has_char sep s = false -> split sep s = [s].
Proof.
  induction s as [|c s IH]; simpl; [reflexivity|].
  destruct (Ascii.eqb c sep); simpl; [discriminate|].
  intros H. now rewrite (IH H).
Qed.

Lemma has_char_lstrip (c : ascii) (s : string) :
  has_char c s = false -> has_char c (lstrip s) = false.
Proof.
  induction s as [|d s IH]; simpl; [reflexivity|].
  intros H. apply orb_false_elim in H as [H1 H2].
  destruct (isspace d); [now apply IH|]. simpl. now rewrite H1, H2.
Qed.

Lemma has_char_rstrip (c : ascii) (s : string) :
  has_char c s = false -> has_char c (rstrip s) = false.
Proof.
  induction s as [|d s IH]; simpl; [reflexivity|].
  intros H. apply orb_false_elim in H as [H1 H2].
  specialize (IH H2).
  destruct (rstrip s); simpl in *.
  - destruct (isspace d); simpl; [reflexivity|now rewrite H1].
  - now rewrite H1, IH.
Qed.

Lemma has_char_strip (c : ascii) (s : string) :
  has_char c s = false -> has_char c (strip s) = false.
Proof. intros H. now apply has_char_rstrip, has_char_lstrip. Qed.

Lemma has_paren_lower (s : string) : has_char "(" (lower s) = has_char "(" s.
Proof.
  induction s as [|c s IH]; simpl; [reflexivity|].
  now rewrite lower_char_paren, IH.
Qed.

(** ** The cleaned query *)

Lemma has_visible_split_head (s : string) :
  has_visible (nth 0 (split "(" s) EmptyString) = visible_before_paren s.
Proof.
  induction s as [|c s IH]; simpl; [reflexivity|].
  destruct (Ascii.eqb c "("); simpl; [reflexivity|].
  rewrite <- IH. now destruct (split "(" s).
Qed.

Lemma cleaned_no_paren (q : string) : has_char "(" (cleaned q) = false.
Proof.
  unfold cleaned. destruct (nonempty q); [|reflexivity].
  rewrite has_paren_lower. apply has_char_strip, split_head_no_sep.
Qed.

(** C2 as the claim states it fails: a raw query that opens with a
    parenthesis is not empty and its cleaned query is. *)
Lemma cleaned_empty_of_nonempty :
  "(approx)" <> "" /\ cleaned "(approx)" = "".
Proof. split; [discriminate|reflexivity]. Qed.

(** C2, amended.  An empty raw query gives an empty cleaned query; for
    every raw query the cleaned query is non-empty exactly when the raw
    query has a character that is not white space before its first ['(']. *)
Theorem cleaned_nonempty_iff_visible :
  cleaned "" = "" /\
  forall q : string, nonempty (cleaned q) = visible_before_paren q.
Proof.
  split; [reflexivity|].
  intros q. unfold cleaned. destruct q as [|c q]; [reflexivity|].
  cbn [nonempty].
  now rewrite nonempty_lower, nonempty_strip, has_visible_split_head.
Qed.

(** C6.  Cleaning is idempotent: cleaning a cleaned query changes
    nothing. *)
Theorem cleaned_idempotent (s : string) : cleaned (cleaned s) = cleaned s.
Proof.
  pose proof (cleaned_no_paren s) as Hp.
  unfold cleaned at 1.
  destruct (nonempty (cleaned s)) eqn:En.
  - rewrite (split_no_sep _ _ Hp). cbn [nth].
    unfold cleaned. destruct (nonempty s); [|reflexivity].
    now rewrite strip_lower, lower_idem, strip_idem.
  - now destruct (cleaned s).
Qed.

(** ** Generic facts about computations *)

Lemma bind_trace {A B} (m : M A) (k : A -> M B) :
  exists t r, bind m k = ((trace m ++ t)%list, r).
Proof.
  destruct m as [t [e|a]]; simpl.
  - exists [], (inl e). now rewrite app_nil_r.
  - destruct (k a) as [t' r]. now exists t', r.
Qed.

Lemma try_except_trace {A} (m : M A) (h : exn -> M A) :
  exists t r, try_except m h = ((trace m ++ t)%list, r).
Proof.
  destruct m as [t [e|a]]; simpl.
  - destruct (h e) as [t' r]. now exists t', r.
  - exists [], (inr a). now rewrite app_nil_r.
Qed.

Lemma bind_ret {A B} (a : A) (k : A -> M B) : bind (ret a) k = k a.
Proof. unfold bind, ret. now destruct (k a). Qed.

(** ** The coin identifier *)

Lemma span_all (p : ascii -> bool) (s : string) :
  all_chars p s = true -> span p s = (s, EmptyString).
Proof.
  induction s as [|c s IH]; simpl; [reflexivity|].
  destruct (p c); simpl; [|discriminate].
  intros H. now rewrite (IH H).
Qed.

Lemma span_not_all (p : ascii -> bool) (s : string) :
  all_chars p s = false -> nonempty (snd (span p s)) = true.
Proof.
  induction s as [|c s IH]; simpl; [discriminate|].
  destruct (p c); simpl; [|reflexivity].
  intros H. specialize (IH H). now destruct (span p s).
Qed.

(** After a run of identifier characters a text that does not end in white
    space cannot be left with a lone newline. *)
Lemma span_rest_newline (s : string) :
  ends_clean s = true ->
  snd (span coin_char s) <> String "010" EmptyString.
Proof.
  induction s as [|c s IH]; simpl; [discriminate|].
  destruct (coin_char c) eqn:Ec.
  - intros H. destruct s as [|d s].
    + simpl. discriminate.
    + specialize (IH H). now destruct (span coin_char (String d s)).
  - simpl. intros H E. injection E as -> ->. discriminate.
Qed.

(** On a text that does not end in white space the pattern accepts exactly
    the identifiers. *)
Lemma re_match_coin_ident (s : string) :
  ends_clean s = true -> re_match_coin s = coin_ident s.
Proof.
  intros H. unfold re_match_coin, coin_ident.
  destruct (all_chars coin_char s) eqn:Ea.
  - now rewrite (span_all _ _ Ea).
  - pose proof (span_not_all _ _ Ea) as Hn.
    pose proof (span_rest_newline _ H) as Hl.
    destruct (span coin_char s) as [w rest]; simpl in *.
    rewrite (proj2 (String.eqb_neq _ _) Hl).
    destruct rest as [|c rest]; [discriminate|].
    now rewrite !andb_false_r.
Qed.

Lemma coin_id_ends_clean (q : string) : ends_clean (lower (strip q)) = true.
Proof. rewrite ends_clean_lower. apply rstrip_ends_clean. Qed.

(** What validation does with every query: either the rejection message
    and nothing else, or a request for the normalised identifier. *)
Lemma crypto_asset_validation (W : World) (q : string) :
  if coin_ident (lower (strip q))
  then exists t r,
      crypto_asset W q
      = (EvCall "crypto_asset" :: EvGet (coin_url (lower (strip q))) :: t, r)
  else crypto_asset W q = ([EvCall "crypto_asset"], inr invalid_format).
Proof.
  unfold crypto_asset.
  rewrite (re_match_coin_ident _ (coin_id_ends_clean q)).
  destruct (coin_ident (lower (strip q))); [|reflexivity].
  cbn [negb].
  match goal with
  | |- context [try_except (bind (requests_get W ?u) ?k) ?h] =>
      destruct (bind_trace (requests_get W u) k) as (t1 & r1 & E1);
      rewrite E1;
      destruct (try_except_trace
                  ((trace (requests_get W u) ++ t1)%list, r1) h)
        as (t2 & r2 & E2);
      rewrite E2
  end.
  unfold requests_get. cbn.
  destruct (http_get W (coin_url (lower (strip q)))); cbn; eauto.
Qed.

(** C1 as the claim states it fails: ["BTC"] is lower-cased before it is
    matched, so it passes validation and a request for [btc] goes out. *)
Lemma crypto_btc_not_rejected :
  In (EvGet (coin_url "btc")) (trace (crypto_asset offline "BTC")) /\
  outcome (crypto_asset offline "BTC") <> inr invalid_format.
Proof. split; [right; left; reflexivity|discriminate]. Qed.

(** C1, amended.  ["bitcoin-cash"] and ["BTC"] both pass validation: the
    adapter strips and lower-cases the query first, and the first thing it
    does after validation is the request for that identifier.  ["btc$"] is
    rejected with the "Invalid cryptocurrency format" message and the
    adapter does nothing else, so no request goes out.  In general a query
    is rejected in that way exactly when its stripped, lower-cased form is
    not a non-empty run of a-z and ['-']. *)
Theorem crypto_identifier_validation (W : World) :
  (exists t r,
      crypto_asset W "bitcoin-cash"
      = (EvCall "crypto_asset" :: EvGet (coin_url "bitcoin-cash") :: t, r)) /\
  (exists t r,
      crypto_asset W "BTC"
      = (EvCall "crypto_asset" :: EvGet (coin_url "btc") :: t, r)) /\
  crypto_asset W "btc$" = ([EvCall "crypto_asset"], inr invalid_format) /\
  (forall q : string,
      if coin_ident (lower (strip q))
      then exists t r,
          crypto_asset W q
          = (EvCall "crypto_asset" :: EvGet (coin_url (lower (strip q))) :: t, r)
      else crypto_asset W q = ([EvCall "crypto_asset"], inr invalid_format)).
Proof.
  split; [|split; [|split]].
  - exact (crypto_asset_validation W "bitcoin-cash").
  - exact (crypto_asset_validation W "BTC").
  - exact (crypto_asset_validation W "btc$").
  - intros q. exact (crypto_asset_validation W q).
Qed.

(** ** The parser *)

Lemma prefix_cons (a b : ascii) (p s : string) :
  String.prefix (String a p) (String b s) = Ascii.eqb a b && String.prefix p s.
Proof.
  simpl. destruct (ascii_dec a b) as [->|n].
  - now rewrite Ascii.eqb_refl.
  - now rewrite (proj2 (Ascii.eqb_neq _ _) n).
Qed.

Lemma prefix_nil (s : string) : String.prefix EmptyString s = true.
Proof. now destruct s. Qed.

(** Two prefixes of one text: one of them is a prefix of the other. *)
Lemma prefix_comparable (s p1 p2 : string) :
  String.prefix p1 s = true -> String.prefix p2 s = true ->
  String.prefix p1 p2 = true \/ String.prefix p2 p1 = true.
Proof.
  revert p1 p2. induction s as [|c s IH]; intros [|a p1] [|b p2] H1 H2;
    try (left; apply prefix_nil); try (right; apply prefix_nil);
    try discriminate.
  rewrite prefix_cons in H1, H2.
  apply andb_prop in H1 as [E1 H1]. apply andb_prop in H2 as [E2 H2].
  apply Ascii.eqb_eq in E1, E2. subst a b.
  rewrite !prefix_cons, Ascii.eqb_refl. cbn [andb]. now apply IH.
Qed.

Lemma lower_char_bracket (c : ascii) :
  Ascii.eqb "[" (lower_char c) = Ascii.eqb "[" c.
Proof. each_char c. Qed.

Lemma startswith_bracket_lower (r : string) :
  startswith "[" (lower r) = startswith "[" r.
Proof.
  destruct r as [|c r]; [reflexivity|]. unfold startswith. cbn [lower].
  now rewrite !prefix_cons, lower_char_bracket, !prefix_nil.
Qed.

(** A text begins with at most one label followed by a space. *)
Lemma label_prefix_unique (a b s : string) :
  In a labels -> In b labels ->
  startswith (a ++ " ") s = true -> startswith (b ++ " ") s = true -> a = b.
Proof.
  intros Ha Hb H1 H2.
  destruct (prefix_comparable _ _ _ H1 H2) as [H|H];
    simpl in Ha, Hb;
    repeat match goal with
           | D : _ \/ _ |- _ => destruct D as [D|D]
           | D : False |- _ => destruct D
           end;
    subst; first [reflexivity | vm_compute in H; discriminate].
Qed.

(** A text that begins with a label does not begin with a bracket. *)
Lemma label_prefix_no_bracket (a r : string) :
  In a labels -> startswith (a ++ " ") (lower r) = true ->
  startswith "[" r = false.
Proof.
  intros Ha H. rewrite <- startswith_bracket_lower.
  destruct (startswith "[" (lower r)) eqn:E; [|reflexivity].
  destruct (prefix_comparable _ _ _ H E) as [H'|H'];
    simpl in Ha;
    repeat match goal with
           | D : _ \/ _ |- _ => destruct D as [D|D]
           | D : False |- _ => destruct D
           end;
    subst; vm_compute in H'; discriminate.
Qed.

(** The loop stops at the one label that matches. *)
Lemma parse_fallback_match (r label : string) (agents : list string) :
  In label agents ->
  startswith (label ++ " ") (lower r) = true ->
  (forall a, In a agents -> startswith (a ++ " ") (lower r) = true -> a = label) ->
  parse_fallback r agents
  = (Some label, PStr (strip (drop (String.length label + 1) r))).
Proof.
  intros Hin Hm Huniq. induction agents as [|a agents IH]; [destruct Hin|].
  cbn [parse_fallback].
  destruct (startswith (a ++ " ") (lower r)) eqn:E.
  - now rewrite (Huniq a (or_introl eq_refl) E).
  - destruct Hin as [->|Hin]; [congruence|].
    apply IH; [exact Hin|]. intros b Hb. apply Huniq. now right.
Qed.

Lemma parse_fallback_none (r : string) (agents : list string) :
  (forall a, In a agents -> startswith (a ++ " ") (lower r) = false) ->
  parse_fallback r agents = (None, PStr r).
Proof.
  induction agents as [|a agents IH]; intros H; [reflexivity|].
  cbn [parse_fallback]. rewrite (H a (or_introl eq_refl)).
  apply IH. intros b Hb. apply H. now right.
Qed.

Lemma has_char_app_sep (c : ascii) (x rest : string) :
  has_char c (x ++ String c rest) = true.
Proof.
  induction x as [|d x IH]; simpl.
  - now rewrite Ascii.eqb_refl.
  - rewrite IH. apply orb_true_r.
Qed.

(** [partition] cuts at the first separator. *)
Lemma partition_first (sep : ascii) (x rest : string) :
  has_char sep x = false ->
  partition sep (x ++ String sep rest) = (x, String sep EmptyString, rest).
Proof.
  induction x as [|d x IH]; simpl.
  - now rewrite Ascii.eqb_refl.
  - intros H. apply orb_false_elim in H as [H1 H2].
    now rewrite H1, (IH H2).
Qed.

(** The parser never logs and never raises on a string. *)
Lemma parse_llm_response_str (W : World) (r : string) :
  parse_llm_response W (PStr r) = parse_body (PStr r).
Proof.
  unfold parse_llm_response, parse_body.
  destruct (startswith "[" r && has_char "]" r).
  - now destruct (partition "]" r) as [[agent_part found] query].
  - reflexivity.
Qed.

(** C3 as the claim states it fails: the text is cut at its first [']'],
    so a label that holds one is cut short. *)
Lemma parse_bracket_in_label :
  "a]b" <> "" /\ has_char "]" "c" = false /\
  outcome (parse_llm_response offline (PStr ("[" ++ "a]b" ++ "] " ++ "c")))
  <> inr (Some (strip "a]b"), PStr (strip "c")).
Proof. repeat split; discriminate. Qed.

(** C3, amended.  For every model text ["[X] Y"] where [X] is non-empty
    and holds no [']'] and [Y] holds no [']'], the parser returns the intent
    [X] stripped and the raw query [Y] stripped.  (The proof uses only the
    condition that [X] holds no [']'].) *)
Theorem parse_bracket_form (W : World) (X Y : string) :
  X <> "" -> has_char "]" X = false -> has_char "]" Y = false ->
  parse_llm_response W (PStr ("[" ++ X ++ "] " ++ Y))
  = ret (Some (strip X), PStr (strip Y)).
Proof.
  intros _ HX _. rewrite parse_llm_response_str. unfold parse_body.
  change ("[" ++ X ++ "] " ++ Y)
    with (String "[" (X ++ String "]" (String " " Y))).
  assert (Hs : startswith "[" (String "[" (X ++ String "]" (String " " Y)))
               = true).
  { unfold startswith. now rewrite prefix_cons, prefix_nil. }
  rewrite Hs.
  change (String "[" (X ++ String "]" (String " " Y)))
    with (String "[" X ++ String "]" (String " " Y)).
  rewrite has_char_app_sep. cbn [andb].
  rewrite partition_first by (simpl; exact HX).
  reflexivity.
Qed.

Lemma parse_bracket_form_witness :
  ("crypto_asset" <> "" /\ has_char "]" "crypto_asset" = false
   /\ has_char "]" " ethereum " = false) /\
  parse_llm_response offline (PStr "[crypto_asset]  ethereum ")
  = ret (Some "crypto_asset", PStr "ethereum").
Proof.
  split.
  - split; [discriminate|split; reflexivity].
  - apply (parse_bracket_form offline "crypto_asset" " ethereum ");
      [discriminate|reflexivity|reflexivity].
Defined.

(** C4 as the claim states it fails: the remainder after the label is
    stripped before it is returned. *)
Lemma parse_bare_label_strips :
  startswith "[" "stock_asset  tsla" = false /\
  startswith ("stock_asset" ++ " ") (lower "stock_asset  tsla") = true /\
  outcome (parse_llm_response offline (PStr "stock_asset  tsla"))
  <> inr (Some "stock_asset",
          PStr (drop (String.length "stock_asset" + 1) "stock_asset  tsla")).
Proof. repeat split; discriminate. Qed.

(** C4, amended.  For every model text that does not start with ['['] and
    whose lower-cased form starts with one of the four labels followed by a
    space, the parser returns that label and, as raw query, the rest of the
    original text after the label and the space, stripped of surrounding
    white space.  ["stock_asset tsla"] gives [stock_asset] and [tsla]. *)
Theorem parse_bare_label (W : World) (r label : string) :
  startswith "[" r = false ->
  In label labels ->
  startswith (label ++ " ") (lower r) = true ->
  parse_llm_response W (PStr r)
  = ret (Some label, PStr (strip (drop (String.length label + 1) r))).
Proof.
  intros Hb Hin Hm. rewrite parse_llm_response_str. unfold parse_body.
  rewrite Hb. cbn [andb]. f_equal. f_equal.
  apply parse_fallback_match; [exact Hin|exact Hm|].
  intros a Ha E. exact (label_prefix_unique _ _ _ Ha Hin E Hm).
Qed.

Lemma parse_bare_label_witness :
  (startswith "[" "stock_asset tsla" = false
   /\ In "stock_asset" labels
   /\ startswith ("stock_asset" ++ " ") (lower "stock_asset tsla") = true) /\
  parse_llm_response offline (PStr "stock_asset tsla")
  = ret (Some "stock_asset", PStr "tsla").
Proof.
  split.
  - split; [reflexivity|split; [right; left; reflexivity|reflexivity]].
  - apply (parse_bare_label offline "stock_asset tsla" "stock_asset");
      [reflexivity|right; left; reflexivity|reflexivity].
Defined.

(** C5.  For every model text that is not in the bracket form (it does not
    both start with ['['] and hold a [']']) and whose lower-cased form starts
    with none of the labels followed by a space, the parser returns no
    intent and the text itself, unchanged, as raw query. *)
Theorem parse_no_match (W : World) (r : string) :
  startswith "[" r && has_char "]" r = false ->
  (forall label, In label labels ->
                 startswith (label ++ " ") (lower r) = false) ->
  parse_llm_response W (PStr r) = ret (None, PStr r).
Proof.
  intros Hb Hn. rewrite parse_llm_response_str. unfold parse_body.
  rewrite Hb. f_equal. f_equal. now apply parse_fallback_none.
Qed.

Lemma parse_no_match_witness :
  (startswith "[" " I think the weather is nice "
   && has_char "]" " I think the weather is nice " = false
   /\ forall label, In label labels ->
        startswith (label ++ " ") (lower " I think the weather is nice ") = false) /\
  parse_llm_response offline (PStr " I think the weather is nice ")
  = ret (None, PStr " I think the weather is nice ").
Proof.
  assert (H : forall label, In label labels ->
            startswith (label ++ " ") (lower " I think the weather is nice ") = false).
  { intros label [<-|[<-|[<-|[<-|[]]]]]; reflexivity. }
  split.
  - split; [reflexivity|exact H].
  - apply (parse_no_match offline " I think the weather is nice ");
      [reflexivity|exact H].
Defined.

(** C9.  The parser is total and never raises: on every value it returns a
    pair; when the body of its [try] raises, the pair is no intent and the
    input itself; otherwise it is what the body returns.  On a string the
    body does not raise and nothing is logged. *)
Theorem parse_llm_response_total (W : World) (v : pyval) :
  (exists t res,
      parse_llm_response W v = (t, inr res) /\
      match outcome (parse_body v) with
      | inl _ => res = (None, v)
      | inr r => res = r
      end) /\
  (forall s : string, exists res, parse_llm_response W (PStr s) = ([], inr res)).
Proof.
  split.
  - unfold parse_llm_response.
    destruct (parse_body v) as [t [e|r]] eqn:E; cbn.
    + eexists _, _. split; reflexivity.
    + eexists _, _. split; reflexivity.
  - intros s. rewrite parse_llm_response_str. unfold parse_body.
    destruct (startswith "[" s && has_char "]" s).
    + destruct (partition "]" s) as [[agent_part found] query]. now eexists.
    + now eexists.
Qed.

(** ** The loop body *)

Lemma parse_fallback_shape (r : string) (agents : list string) :
  exists a q, parse_fallback r agents = (a, PStr q).
Proof.
  induction agents as [|agent agents IH]; cbn [parse_fallback]; [now eexists _, _|].
  destruct (startswith (agent ++ " ") (lower r)); [now eexists _, _|exact IH].
Qed.

(** On a string the parser hands over a string. *)
Lemma parse_str_shape (W : World) (r : string) :
  exists a q, parse_llm_response W (PStr r) = ret (a, PStr q).
Proof.
  rewrite parse_llm_response_str. unfold parse_body.
  destruct (startswith "[" r && has_char "]" r).
  - destruct (partition "]" r) as [[agent_part found] query]. now eexists _, _.
  - destruct (parse_fallback_shape r labels) as (a & q & E).
    rewrite E. now eexists _, _.
Qed.

(** An intent comes out only of a string, and with a string. *)
Lemma parsed_intent_of_str (W : World) (v q : pyval) (label : string) :
  outcome (parse_llm_response W v) = inr (Some label, q) ->
  exists q', q = PStr q' /\ parse_llm_response W v = ret (Some label, PStr q').
Proof.
  destruct v as [| | | |r| |]; try discriminate.
  destruct (parse_str_shape W r) as (a & q' & E). rewrite E. cbn.
  intros H. injection H as -> <-. now exists q'.
Qed.

Lemma route_parsed (W : World) (v : pyval) (a : option string) (q : string) :
  parse_llm_response W v = ret (a, PStr q) ->
  route W v = respond W v a (PStr q).
Proof.
  intros E. unfold route. now rewrite E, bind_ret.
Qed.

Lemma respond_intent (W : World) (v : pyval) (label q : string) :
  label <> "" ->
  respond W v (Some label) (PStr q)
  = try_except (dispatch W label (cleaned q)) (turn_handler W).
Proof.
  intros Hl. destruct label as [|c label]; [contradiction|].
  unfold respond, clean_query. now rewrite bind_ret.
Qed.

Lemma getattr_agents_defined (W : World) (agent_type : string) :
  In agent_type valid_agents -> agent_type <> "web_asset" ->
  exists method, getattr_agents W agent_type = ret method.
Proof.
  intros [<-|[<-|[<-|[<-|[]]]]] H;
    [eexists; reflexivity | eexists; reflexivity | eexists; reflexivity
    | congruence].
Qed.

Lemma web_asset_events (W : World) (q : string) :
  forallb web_event (trace (web_asset W q)) = true.
Proof.
  unfold web_asset, requests_get.
  destruct (getenv W "GOOGLE_API_KEY") as [[|c1 k1]|]; try reflexivity;
    destruct (getenv W "SEARCH_ENGINE_ID") as [[|c2 k2]|]; try reflexivity.
  cbn.
  destruct (http_get W _) as [e|resp]; [reflexivity|]. cbn.
  destruct (json resp) as [e|results]; [reflexivity|]. cbn.
  destruct (dict_get results "items" (PList [])) as [e|items]; [reflexivity|]. cbn.
  destruct (first_three items) as [e|shown]; [reflexivity|]. cbn.
  destruct (search_results_of shown) as [e|found]; reflexivity.
Qed.

(** C7.  Whenever the parser returns an agent type that is not empty and
    is not one of the four registered labels, the loop body prints
    "Assistant: Unknown agent type: " followed by that label and does
    nothing else: no adapter and no other function is entered. *)
Theorem unknown_agent_notice (W : World) (v q : pyval) (label : string) :
  outcome (parse_llm_response W v) = inr (Some label, q) ->
  label <> "" ->
  ~ In label valid_agents ->
  route W v = ([EvPrint ("Assistant: Unknown agent type: " ++ label)], inr tt)
  /\ forall fn, ~ In (EvCall fn) (trace (route W v)).
Proof.
  intros Hp Hl Hn.
  destruct (parsed_intent_of_str _ _ _ _ Hp) as (q' & -> & E).
  assert (R : route W v
              = ([EvPrint ("Assistant: Unknown agent type: " ++ label)], inr tt)).
  { rewrite (route_parsed _ _ _ _ E), (respond_intent _ _ _ _ Hl).
    unfold dispatch.
    destruct (existsb (String.eqb label) valid_agents) eqn:Ex; [|reflexivity].
    exfalso. apply Hn. apply existsb_exists in Ex as (x & Hx & Ex).
    apply String.eqb_eq in Ex. now subst x. }
  split; [exact R|].
  rewrite R. intros fn [H|[]]. discriminate.
Qed.

Lemma unknown_agent_notice_witness :
  (outcome (parse_llm_response offline (PStr "[currency_asset] euro"))
   = inr (Some "currency_asset", PStr "euro")
   /\ "currency_asset" <> ""
   /\ ~ In "currency_asset" valid_agents) /\
  route offline (PStr "[currency_asset] euro")
  = ([EvPrint "Assistant: Unknown agent type: currency_asset"], inr tt).
Proof.
  assert (Hn : ~ In "currency_asset" valid_agents).
  { intros [H|[H|[H|[H|[]]]]]; discriminate. }
  split.
  - split; [reflexivity|split; [discriminate|exact Hn]].
  - apply (unknown_agent_notice offline (PStr "[currency_asset] euro")
             (PStr "euro") "currency_asset");
      [reflexivity|discriminate|exact Hn].
Defined.

(** C8.  Whenever the parser returns the intent [web_asset] and the web
    adapter, called with the cleaned query, returns the empty list, the
    loop body prints "Assistant: No relevant results found." after what the
    adapter did, and the summarizer is not entered: the trace holds no call
    of [summarize_results] and no POST request. *)
Theorem no_results_notice (W : World) (v : pyval) (q : string) :
  outcome (parse_llm_response W v) = inr (Some "web_asset", PStr q) ->
  outcome (web_asset W (cleaned q)) = inr (inr []) ->
  route W v
  = ((trace (web_asset W (cleaned q))
      ++ [EvPrint "Assistant: No relevant results found."])%list, inr tt)
  /\ ~ In (EvCall "summarize_results") (trace (route W v))
  /\ forall url payload, ~ In (EvPost url payload) (trace (route W v)).
Proof.
  intros Hp Hw.
  destruct (parsed_intent_of_str _ _ _ _ Hp) as (q' & Hq & E).
  injection Hq as <-.
  assert (R : route W v
              = ((trace (web_asset W (cleaned q))
                  ++ [EvPrint "Assistant: No relevant results found."])%list,
                 inr tt)).
  { rewrite (route_parsed _ _ _ _ E), respond_intent by discriminate.
    unfold dispatch. cbn [existsb valid_agents].
    change (existsb (String.eqb "web_asset") valid_agents) with true.
    change (String.eqb "web_asset" "web_asset") with true.
    cbn [negb].
    destruct (web_asset W (cleaned q)) as [t res]. cbn in Hw. subst res.
    reflexivity. }
  pose proof (web_asset_events W (cleaned q)) as Hev.
  rewrite forallb_forall in Hev.
  split; [exact R|]. rewrite R. cbn [trace fst].
  split.
  - intros H. apply in_app_or in H as [H|[H|[]]]; [|discriminate].
    apply Hev in H. discriminate.
  - intros url payload H. apply in_app_or in H as [H|[H|[]]]; [|discriminate].
    apply Hev in H. discriminate.
Qed.

Lemma no_results_notice_witness :
  (outcome (parse_llm_response empty_search (PStr "[web_asset] Pixel 9 (reviews)"))
   = inr (Some "web_asset", PStr "Pixel 9 (reviews)")
   /\ outcome (web_asset empty_search (cleaned "Pixel 9 (reviews)"))
      = inr (inr [])) /\
  route empty_search (PStr "[web_asset] Pixel 9 (reviews)")
  = ([EvCall "web_asset";
      EvGet "https://www.googleapis.com/customsearch/v1?key=key&cx=key&q=pixel 9";
      EvPrint "Assistant: No relevant results found."], inr tt).
Proof.
  split.
  - split; reflexivity.
  - apply (no_results_notice empty_search
             (PStr "[web_asset] Pixel 9 (reviews)") "Pixel 9 (reviews)");
      reflexivity.
Defined.

(** C10.  For every model text that begins with ["[]"], the parser returns
    the empty string as agent type (and the stripped rest as raw query);
    the empty agent type is false for the loop body, which prints the model
    text itself after "Assistant: " and nothing else: no "Unknown agent
    type" notice and no adapter. *)
Theorem empty_brackets_general_answer (W : World) (rest : string) :
  parse_llm_response W (PStr ("[]" ++ rest)) = ret (Some "", PStr (strip rest))
  /\ route W (PStr ("[]" ++ rest))
     = ([EvPrint ("Assistant: " ++ "[]" ++ rest)], inr tt).
Proof.
  assert (E : parse_llm_response W (PStr ("[]" ++ rest))
              = ret (Some "", PStr (strip rest))) by reflexivity.
  split; [exact E|].
  now rewrite (route_parsed _ _ _ _ E).
Qed.

(** * Further properties of the code *)

(** ** Computations that return *)

Lemma bind_inr {A B} (t : list event) (a : A) (k : A -> M B) :
  bind (t, inr a) k = ((t ++ trace (k a))%list, outcome (k a)).
Proof. unfold bind, trace, outcome. now destruct (k a). Qed.

Lemma bind_inl {A B} (t : list event) (e : exn) (k : A -> M B) :
  bind (t, inl e) k = (t, inl e).
Proof. reflexivity. Qed.

Lemma bind_emit {B} (ev : event) (m : M B) :
  (emit ev ;;; m) = (ev :: trace m, outcome m).
Proof. unfold emit. now rewrite bind_inr. Qed.

Lemma returns_inr {A} (m : M A) :
  returns m -> exists t a, m = (t, inr a).
Proof. destruct m as [t r]. intros [a E]. cbn in E. subst r. now exists t, a. Qed.

Lemma returns_bind {A B} (m : M A) (k : A -> M B) :
  returns m -> (forall a, returns (k a)) -> returns (bind m k).
Proof.
  intros Hm Hk. destruct (returns_inr _ Hm) as (t & a & ->).
  rewrite bind_inr. exact (Hk a).
Qed.

Lemma returns_emit (ev : event) : returns (emit ev).
Proof. now exists tt. Qed.

Lemma returns_ret {A} (a : A) : returns (ret a).
Proof. now exists a. Qed.

(** A [try] whose handler returns lets nothing out. *)
Lemma returns_try_except {A} (m : M A) (h : exn -> M A) :
  (forall e, returns (h e)) -> returns (try_except m h).
Proof.
  intros Hh. destruct m as [t [e|a]]; cbn.
  - destruct (returns_inr _ (Hh e)) as (t' & a & ->). now exists a.
  - now exists a.
Qed.

(** The shape of the six functions that talk to the network: an entry
    mark, then a [try] whose handler logs and returns a message. *)
Lemma returns_guarded {A} (fn msg : string) (m : M A) (f : exn -> A) :
  returns (emit (EvCall fn) ;;;
           try_except m (fun e => logging_exception msg ;;; ret (f e))).
Proof.
  apply returns_bind; [apply returns_emit|]. intros _.
  apply returns_try_except. intros e.
  apply returns_bind; [apply returns_emit|]. intros _. apply returns_ret.
Qed.

Lemma crypto_asset_returns (W : World) (q : string) : returns (crypto_asset W q).
Proof. apply returns_guarded. Qed.

Lemma stock_asset_returns (W : World) (q : string) : returns (stock_asset W q).
Proof. apply returns_guarded. Qed.

Lemma weather_asset_returns (W : World) (q : string) : returns (weather_asset W q).
Proof. apply returns_guarded. Qed.

Lemma web_asset_returns (W : World) (q : string) : returns (web_asset W q).
Proof. apply returns_guarded. Qed.

Lemma query_llm_returns (W : World) (prompt : string) : returns (query_llm W prompt).
Proof. apply returns_guarded. Qed.

Lemma summarize_results_returns (W : World) (q : string)
    (results : list search_result) : returns (summarize_results W q results).
Proof. apply returns_guarded. Qed.

Lemma print_sources_returns (W : World) (results : list search_result) (idx : nat) :
  returns (print_sources W idx results).
Proof.
  revert idx. induction results as [|r rs IH]; intros idx; cbn [print_sources].
  - apply returns_ret.
  - apply returns_bind; [apply returns_emit|]. intros _. apply IH.
Qed.

Lemma dispatch_returns (W : World) (agent_type query : string) :
  returns (dispatch W agent_type query).
Proof.
  unfold dispatch.
  destruct (existsb (String.eqb agent_type) valid_agents) eqn:Ev; cbn [negb].
  2: apply returns_emit.
  destruct (String.eqb agent_type "web_asset") eqn:Ew.
  - apply returns_bind; [apply web_asset_returns|].
    intros [message|[|r found]]; try apply returns_emit.
    apply returns_bind; [apply summarize_results_returns|]. intros summary.
    repeat (apply returns_bind; [apply returns_emit|]; intros _).
    apply print_sources_returns.
  - apply existsb_exists in Ev as (x & Hx & Ex).
    apply String.eqb_eq in Ex. subst x.
    destruct Hx as [<-|[<-|[<-|[<-|[]]]]]; try discriminate;
      [change (getattr_agents W "crypto_asset") with (ret (crypto_asset W))
      |change (getattr_agents W "stock_asset") with (ret (stock_asset W))
      |change (getattr_agents W "weather_asset") with (ret (weather_asset W))];
      rewrite bind_ret;
      (apply returns_bind;
       [first [apply crypto_asset_returns | apply stock_asset_returns
              | apply weather_asset_returns]
       | intros result; apply returns_emit]).
Qed.

(** X1.  None of the six functions that talk to the network lets an
    exception out: the four adapters, the classifier and the summarizer
    return a value whatever the environment and the network do. *)
Theorem network_functions_return (W : World) (q : string)
    (results : list search_result) :
  returns (crypto_asset W q) /\ returns (stock_asset W q) /\
  returns (weather_asset W q) /\ returns (web_asset W q) /\
  returns (query_llm W q) /\ returns (summarize_results W q results).
Proof.
  split; [apply crypto_asset_returns|].
  split; [apply stock_asset_returns|].
  split; [apply weather_asset_returns|].
  split; [apply web_asset_returns|].
  split; [apply query_llm_returns|apply summarize_results_returns].
Qed.

Lemma try_except_returns {A} (m : M A) (h : exn -> M A) :
  returns m -> try_except m h = m.
Proof. intros Hm. now destruct (returns_inr _ Hm) as (t & a & ->). Qed.


(** ** The loop body on every answer *)



(** What the loop body does with an answer that is not a string: the
    parser logs and hands the value back; a true value then has no [split],
    a false one is printed. *)
Lemma route_non_str (W : World) (v : pyval) :
  is_str v = false ->
  route W v
  = if truthy v
    then ([EvLog ("Parse error: " ++ str_exn W (AttributeError v "startswith"))],
          inl (AttributeError v "split"))
    else ([EvLog ("Parse error: " ++ str_exn W (AttributeError v "startswith"));
           EvPrint ("Assistant: " ++ format_value W v)], inr tt).
Proof.
  intros Hs. destruct v as [|b|z|f|s|l|d]; try discriminate;
    cbv [route parse_llm_response parse_body try_except raise logging_error
           emit bind ret respond clean_query print];
    cbn [app]; match goal with |- context [truthy ?v] => destruct (truthy v) end;
    reflexivity.
Qed.


(** ** One turn *)

Lemma query_llm_ok (W : World) (prompt : string) (resp : response)
    (body content : pyval) :
  http_post W llm_endpoint (classify_payload prompt) = inr resp ->
  status_ok resp = true ->
  json resp = inr body ->
  chat_body body content ->
  query_llm W prompt
  = ([EvCall "query_llm"; EvPost llm_endpoint (classify_payload prompt)],
     inr content).
Proof.
  intros Hp Hs Hj (first & rest & message & H1 & H2 & H3).
  unfold status_ok in Hs. apply negb_true_iff in Hs.
  unfold query_llm, requests_post, raise_for_status, message_content.
  fold (classify_payload prompt).
  rewrite Hp.
  cbv [bind emit lift ret try_except raise].
  rewrite Hs, Hj, H1. cbn [subscript_zero]. rewrite H2, H3.
  reflexivity.
Qed.

Lemma query_llm_failure (W : World) (prompt : string) (e : exn) :
  llm_fails W prompt e ->
  query_llm W prompt
  = ([EvCall "query_llm"; EvPost llm_endpoint (classify_payload prompt);
      EvLog "LLM query error"],
     inr (PStr ("LLM Error: " ++ str_exn W e))).
Proof.
  unfold query_llm, requests_post, raise_for_status.
  fold (classify_payload prompt).
  intros [Hp|(resp & Hp & Hs & He)]; rewrite Hp.
  - reflexivity.
  - unfold status_ok in Hs. apply negb_false_iff in Hs.
    cbv [bind emit lift ret try_except raise logging_exception].
    rewrite Hs, He. reflexivity.
Qed.

Lemma turn_unfold (W : World) (prompt : string) (t : list event) (v : pyval) :
  query_llm W prompt = (t, inr v) ->
  turn W prompt = ((t ++ trace (route W v))%list, outcome (route W v)).
Proof. intros E. unfold turn. now rewrite E, bind_inr. Qed.

(** X4.  When the classification request is answered with an accepted
    status and a well-formed chat completion, [query_llm] returns the
    message content as it is, after one POST and nothing else, and the turn
    goes on with exactly what the loop body does with that content. *)
Theorem turn_routes_content (W : World) (prompt : string) (resp : response)
    (body content : pyval) :
  http_post W llm_endpoint (classify_payload prompt) = inr resp ->
  status_ok resp = true ->
  json resp = inr body ->
  chat_body body content ->
  query_llm W prompt
  = ([EvCall "query_llm"; EvPost llm_endpoint (classify_payload prompt)],
     inr content)
  /\ turn W prompt
     = (EvCall "query_llm" :: EvPost llm_endpoint (classify_payload prompt)
          :: trace (route W content),
        outcome (route W content)).
Proof.
  intros Hp Hs Hj Hb.
  pose proof (query_llm_ok _ _ _ _ _ Hp Hs Hj Hb) as E.
  split; [exact E|]. now rewrite (turn_unfold _ _ _ _ E).
Qed.

Lemma online_chat_body :
  chat_body
    (PDict [("choices",
             PList [PDict [("message",
                            PDict [("content",
                                    PStr "[crypto_asset] Bitcoin (BTC)")])]])])
    (PStr "[crypto_asset] Bitcoin (BTC)").
Proof. eexists _, _, _. repeat split; reflexivity. Qed.

Lemma turn_routes_content_witness :
  turn online "btc price?"
  = ([EvCall "query_llm"; EvPost llm_endpoint (classify_payload "btc price?");
      EvCall "crypto_asset"; EvGet (coin_url "bitcoin");
      EvPrint "Assistant: Bitcoin: $50000"], inr tt).
Proof.
  exact (proj2 (turn_routes_content online "btc price?" _ _ _
                  eq_refl eq_refl eq_refl online_chat_body)).
Defined.

(** X5.  When the model's answer is well formed but its content is not a
    string and is true (a number other than zero, a non-empty list or
    dictionary, [true]), the turn raises [AttributeError] from the cleaning
    line, outside the [try] of the loop body, and prints nothing. *)
Theorem turn_crashes_on_non_text_answer (W : World) (prompt : string)
    (resp : response) (body content : pyval) :
  http_post W llm_endpoint (classify_payload prompt) = inr resp ->
  status_ok resp = true ->
  json resp = inr body ->
  chat_body body content ->
  is_str content = false -> truthy content = true ->
  outcome (turn W prompt) = inl (AttributeError content "split")
  /\ count is_print (trace (turn W prompt)) = 0.
Proof.
  intros Hp Hs Hj Hb Hn Ht.
  rewrite (turn_unfold _ _ _ _ (query_llm_ok _ _ _ _ _ Hp Hs Hj Hb)).
  rewrite (route_non_str W content Hn), Ht. split; reflexivity.
Qed.

Lemma numeric_chat_body :
  chat_body
    (PDict [("choices",
             PList [PDict [("message", PDict [("content", PInt 5)])]])])
    (PInt 5).
Proof. eexists _, _, _. repeat split; reflexivity. Qed.

Lemma turn_crashes_on_non_text_answer_witness :
  outcome (turn numeric_answer "hello") = inl (AttributeError (PInt 5) "split")
  /\ count is_print (trace (turn numeric_answer "hello")) = 0.
Proof.
  exact (turn_crashes_on_non_text_answer numeric_answer "hello" _ _ _
           eq_refl eq_refl eq_refl numeric_chat_body eq_refl eq_refl).
Defined.

(** X6.  When the classification request fails (it raises, or it is
    answered with a 4xx or 5xx status), the turn logs the failure and
    prints "Assistant: LLM Error: " followed by the text of the error: the
    error message is parsed like a model answer, matches neither form, and
    is shown as a general answer.  No adapter is entered. *)
Theorem turn_llm_failure (W : World) (prompt : string) (e : exn) :
  llm_fails W prompt e ->
  turn W prompt
  = ([EvCall "query_llm"; EvPost llm_endpoint (classify_payload prompt);
      EvLog "LLM query error";
      EvPrint ("Assistant: LLM Error: " ++ str_exn W e)], inr tt).
Proof.
  intros Hf. rewrite (turn_unfold _ _ _ _ (query_llm_failure _ _ _ Hf)).
  reflexivity.
Qed.

Lemma turn_llm_failure_witness :
  turn offline "hello"
  = ([EvCall "query_llm"; EvPost llm_endpoint (classify_payload "hello");
      EvLog "LLM query error";
      EvPrint "Assistant: LLM Error: connection refused"], inr tt).
Proof.
  apply (turn_llm_failure offline "hello"
           (LibraryError RequestException "connection refused")).
  left. reflexivity.
Defined.

(** ** Credentials and requests *)

(** X7.  An adapter whose credential is unset or empty returns its
    "missing key" message without any request: the stock and the weather
    adapter for their one key, the web adapter when either of its two is
    missing. *)
Theorem missing_credentials_no_request (W : World) (q : string) :
  (no_key W "ALPHAVANTAGE_API_KEY" = true ->
   stock_asset W q
   = ([EvCall "stock_asset"], inr "Stock API Error: Missing API key.")) /\
  (no_key W "OPENWEATHER_API_KEY" = true ->
   weather_asset W q
   = ([EvCall "weather_asset"], inr "Weather Error: Missing API key.")) /\
  (no_key W "GOOGLE_API_KEY" = true \/ no_key W "SEARCH_ENGINE_ID" = true ->
   web_asset W q
   = ([EvCall "web_asset"],
      inr (inl "Web Search Error: Missing Google API key or Search Engine ID."))).
Proof.
  unfold no_key, stock_asset, weather_asset, web_asset.
  split; [|split].
  - destruct (getenv W "ALPHAVANTAGE_API_KEY") as [[|c k]|];
      [reflexivity|discriminate|reflexivity].
  - destruct (getenv W "OPENWEATHER_API_KEY") as [[|c k]|];
      [reflexivity|discriminate|reflexivity].
  - destruct (getenv W "GOOGLE_API_KEY") as [[|c k]|];
      destruct (getenv W "SEARCH_ENGINE_ID") as [[|c' k']|];
      intros [H|H]; try discriminate; reflexivity.
Qed.

Lemma missing_credentials_no_request_witness :
  stock_asset offline "tsla"
  = ([EvCall "stock_asset"], inr "Stock API Error: Missing API key.") /\
  weather_asset offline "tokyo"
  = ([EvCall "weather_asset"], inr "Weather Error: Missing API key.") /\
  web_asset offline "pixel 9"
  = ([EvCall "web_asset"],
     inr (inl "Web Search Error: Missing Google API key or Search Engine ID.")).
Proof.
  split; [|split].
  - apply (proj1 (missing_credentials_no_request offline "tsla")). reflexivity.
  - apply (proj1 (proj2 (missing_credentials_no_request offline "tokyo"))).
    reflexivity.
  - apply (proj2 (proj2 (missing_credentials_no_request offline "pixel 9"))).
    left. reflexivity.
Defined.

(** ** Counting requests *)

Lemma quiet_ret {A} (a : A) : quiet (ret a).
Proof. reflexivity. Qed.

Lemma quiet_raise {A} (e : exn) : quiet (@raise A e).
Proof. reflexivity. Qed.

Lemma quiet_lift {A} (r : exn + A) : quiet (lift r).
Proof. reflexivity. Qed.

Lemma quiet_bind {A B} (m : M A) (k : A -> M B) :
  quiet m -> (forall a, quiet (k a)) -> quiet (bind m k).
Proof.
  unfold quiet. destruct m as [t [e|a]]; cbn; intros ->; [reflexivity|].
  intros H. specialize (H a). now destruct (k a).
Qed.

Ltac quiet :=
  repeat first
    [ apply quiet_ret | apply quiet_raise | apply quiet_lift
    | apply quiet_bind; [|intros ?]
    | match goal with
      | |- quiet (if ?b then _ else _) => destruct b
      | |- quiet (match ?x with _ => _ end) => destruct x
      | |- quiet (let (_, _) := ?x in _) => destruct x
      end ].

(** A request followed by steps that emit nothing leaves one event. *)
Lemma get_then_quiet {B} (W : World) (url : string) (k : response -> M B) :
  (forall r, quiet (k r)) ->
  trace (bind (requests_get W url) k) = [EvGet url].
Proof.
  intros Hk. unfold requests_get. cbv [bind emit lift].
  destruct (http_get W url) as [e|r]; [reflexivity|].
  specialize (Hk r). unfold quiet, trace in Hk.
  destruct (k r) as [t o]. cbn in *. now subst t.
Qed.

Lemma post_then_quiet {B} (W : World) (url : string) (payload : pyval)
    (k : response -> M B) :
  (forall r, quiet (k r)) ->
  trace (bind (requests_post W url payload) k) = [EvPost url payload].
Proof.
  intros Hk. unfold requests_post. cbv [bind emit lift].
  destruct (http_post W url payload) as [e|r]; [reflexivity|].
  specialize (Hk r). unfold quiet, trace in Hk.
  destruct (k r) as [t o]. cbn in *. now subst t.
Qed.

Lemma count_app (p : event -> bool) (t1 t2 : list event) :
  count p (t1 ++ t2) = count p t1 + count p t2.
Proof. unfold count. now rewrite filter_app, length_app. Qed.

(** The entry mark and the log line of a guarded function are neither a
    GET nor a POST: its requests are those of its [try] block. *)
Lemma guarded_count {A} (p : event -> bool) (fn msg : string) (m : M A)
    (f : exn -> A) :
  p (EvCall fn) = false -> p (EvLog msg) = false ->
  count p (trace (emit (EvCall fn) ;;;
                  try_except m (fun e => logging_exception msg ;;; ret (f e))))
  = count p (trace m).
Proof.
  intros H1 H2. rewrite bind_emit. cbn [trace fst].
  destruct m as [t [e|a]]; cbn [try_except logging_exception emit bind ret trace fst].
  - unfold count. cbn [filter]. rewrite H1.
    rewrite app_nil_r, filter_app, length_app. cbn [filter]. rewrite H2.
    cbn. lia.
  - unfold count. cbn [filter]. now rewrite H1.
Qed.

Ltac request_body :=
  cbv zeta;
  repeat match goal with
         | |- context [trace (if ?b then _ else _)] => destruct b
         | |- context [trace (match ?x with _ => _ end)] => destruct x
         end;
  try (rewrite get_then_quiet by (intros ?; quiet));
  try (rewrite post_then_quiet by (intros ?; quiet));
  try reflexivity; try (cbv; lia).

Lemma crypto_asset_requests (W : World) (q : string) :
  count is_get (trace (crypto_asset W q)) <= 1 /\
  count is_post (trace (crypto_asset W q)) = 0.
Proof.
  unfold crypto_asset. rewrite !guarded_count by reflexivity.
  split; request_body.
Qed.

Lemma stock_asset_requests (W : World) (q : string) :
  count is_get (trace (stock_asset W q)) <= 1 /\
  count is_post (trace (stock_asset W q)) = 0.
Proof.
  unfold stock_asset. rewrite !guarded_count by reflexivity.
  split; request_body.
Qed.

Lemma weather_asset_requests (W : World) (q : string) :
  count is_get (trace (weather_asset W q)) <= 1 /\
  count is_post (trace (weather_asset W q)) = 0.
Proof.
  unfold weather_asset. rewrite !guarded_count by reflexivity.
  split; request_body.
Qed.

Lemma web_asset_requests (W : World) (q : string) :
  count is_get (trace (web_asset W q)) <= 1 /\
  count is_post (trace (web_asset W q)) = 0.
Proof.
  unfold web_asset. rewrite !guarded_count by reflexivity.
  split; request_body.
Qed.

Lemma query_llm_requests (W : World) (prompt : string) :
  count is_get (trace (query_llm W prompt)) = 0 /\
  count is_post (trace (query_llm W prompt)) = 1.
Proof.
  unfold query_llm, raise_for_status, message_content.
  rewrite !guarded_count by reflexivity.
  split; request_body.
Qed.

Lemma summarize_results_requests (W : World) (q : string)
    (results : list search_result) :
  count is_get (trace (summarize_results W q results)) = 0 /\
  count is_post (trace (summarize_results W q results)) = 1.
Proof.
  unfold summarize_results, raise_for_status, message_content.
  cbv zeta. rewrite !guarded_count by reflexivity.
  split; request_body.
Qed.

(** X8.  No function retries or makes a second request: each adapter makes
    at most one GET and no POST in a call, and the classifier and the
    summarizer make exactly one POST and no GET. *)
Theorem one_request_per_call (W : World) (q : string)
    (results : list search_result) :
  (count is_get (trace (crypto_asset W q)) <= 1
   /\ count is_post (trace (crypto_asset W q)) = 0) /\
  (count is_get (trace (stock_asset W q)) <= 1
   /\ count is_post (trace (stock_asset W q)) = 0) /\
  (count is_get (trace (weather_asset W q)) <= 1
   /\ count is_post (trace (weather_asset W q)) = 0) /\
  (count is_get (trace (web_asset W q)) <= 1
   /\ count is_post (trace (web_asset W q)) = 0) /\
  (count is_get (trace (query_llm W q)) = 0
   /\ count is_post (trace (query_llm W q)) = 1) /\
  (count is_get (trace (summarize_results W q results)) = 0
   /\ count is_post (trace (summarize_results W q results)) = 1).
Proof.
  split; [apply crypto_asset_requests|].
  split; [apply stock_asset_requests|].
  split; [apply weather_asset_requests|].
  split; [apply web_asset_requests|].
  split; [apply query_llm_requests|apply summarize_results_requests].
Qed.

Lemma count_bind {A B} (p : event -> bool) (m : M A) (k : A -> M B)
    (t : list event) (a : A) :
  m = (t, inr a) ->
  count p (trace (bind m k)) = count p t + count p (trace (k a)).
Proof. intros ->. rewrite bind_inr. cbn [trace fst]. apply count_app. Qed.

Lemma count_print_then {B} (p : event -> bool) (text : string) (m : M B) :
  p (EvPrint text) = false ->
  count p (trace (print text ;;; m)) = count p (trace m).
Proof.
  intros H. unfold print. rewrite bind_emit. cbn [trace fst].
  unfold count. cbn [filter]. now rewrite H.
Qed.

Lemma count_print_sources (p : event -> bool) (W : World)
    (results : list search_result) (idx : nat) :
  (forall text, p (EvPrint text) = false) ->
  count p (trace (print_sources W idx results)) = 0.
Proof.
  intros Hp. revert idx.
  induction results as [|r rs IH]; intros idx; cbn [print_sources];
    [reflexivity|].
  rewrite count_print_then by apply Hp. apply IH.
Qed.

Lemma count_print (p : event -> bool) (text : string) :
  p (EvPrint text) = false -> count p (trace (print text)) = 0.
Proof. intros H. unfold count. cbn. now rewrite H. Qed.

(** A string adapter followed by the line that prints its result. *)
Lemma adapter_then_print_requests (W : World) (method : string -> M string)
    (query : string) :
  returns (method query) ->
  count is_get (trace (method query)) <= 1 ->
  count is_post (trace (method query)) = 0 ->
  count is_get (trace (result <- method query ;;
                       print ("Assistant: " ++ result))) <= 1 /\
  count is_post (trace (result <- method query ;;
                        print ("Assistant: " ++ result))) = 0.
Proof.
  intros Hr Hg Hp. destruct (returns_inr _ Hr) as (t & a & E).
  rewrite E in Hg, Hp. cbn [trace fst] in Hg, Hp.
  rewrite !(count_bind _ _ _ _ _ E), !count_print by reflexivity. lia.
Qed.

Lemma dispatch_requests (W : World) (agent_type query : string) :
  count is_get (trace (dispatch W agent_type query)) <= 1 /\
  count is_post (trace (dispatch W agent_type query)) <= 1.
Proof.
  unfold dispatch.
  destruct (existsb (String.eqb agent_type) valid_agents) eqn:Ev; cbn [negb].
  2: { rewrite !count_print by reflexivity. lia. }
  destruct (String.eqb agent_type "web_asset") eqn:Ew.
  - destruct (returns_inr _ (web_asset_returns W query)) as (t & res & E).
    destruct (web_asset_requests W query) as [Hg Hp].
    rewrite E in Hg, Hp. cbn [trace fst] in Hg, Hp.
    rewrite !(count_bind _ _ _ _ _ E).
    destruct res as [message|[|r found]];
      try (rewrite !count_print by reflexivity; lia).
    destruct (returns_inr _ (summarize_results_returns W query (r :: found)))
      as (t' & summary & E').
    destruct (summarize_results_requests W query (r :: found)) as [Hg' Hp'].
    rewrite E' in Hg', Hp'. cbn [trace fst] in Hg', Hp'.
    rewrite !(count_bind _ _ _ _ _ E').
    rewrite !count_print_then by reflexivity.
    rewrite !count_print_sources by reflexivity. lia.
  - apply existsb_exists in Ev as (x & Hx & Ex).
    apply String.eqb_eq in Ex. subst x.
    destruct Hx as [<-|[<-|[<-|[<-|[]]]]]; try discriminate;
      [change (getattr_agents W "crypto_asset") with (ret (crypto_asset W))
      |change (getattr_agents W "stock_asset") with (ret (stock_asset W))
      |change (getattr_agents W "weather_asset") with (ret (weather_asset W))];
      rewrite bind_ret.
    + destruct (crypto_asset_requests W query) as [Hg Hp].
      destruct (adapter_then_print_requests W (crypto_asset W) query
                  (crypto_asset_returns W query) Hg Hp). lia.
    + destruct (stock_asset_requests W query) as [Hg Hp].
      destruct (adapter_then_print_requests W (stock_asset W) query
                  (stock_asset_returns W query) Hg Hp). lia.
    + destruct (weather_asset_requests W query) as [Hg Hp].
      destruct (adapter_then_print_requests W (weather_asset W) query
                  (weather_asset_returns W query) Hg Hp). lia.
Qed.

Lemma route_requests (W : World) (v : pyval) :
  count is_get (trace (route W v)) <= 1 /\
  count is_post (trace (route W v)) <= 1.
Proof.
  destruct (is_str v) eqn:Hs.
  - destruct v as [| | | |r| |]; try discriminate.
    destruct (parse_str_shape W r) as (a & q & E).
    rewrite (route_parsed _ _ _ _ E).
    unfold respond, clean_query. rewrite bind_ret.
    destruct a as [[|c a]|];
      try (rewrite !count_print by reflexivity; lia).
    rewrite (try_except_returns _ _ (dispatch_returns W _ _)).
    apply dispatch_requests.
  - rewrite (route_non_str W v Hs). destruct (truthy v); cbv; lia.
Qed.

(** X9.  A whole turn makes at most three requests and never repeats one:
    the classification POST, at most one GET by an adapter and at most one
    more POST, by the summarizer. *)
Theorem turn_requests (W : World) (prompt : string) :
  count is_get (trace (turn W prompt)) <= 1 /\
  1 <= count is_post (trace (turn W prompt)) <= 2.
Proof.
  destruct (returns_inr _ (query_llm_returns W prompt)) as (t & v & E).
  destruct (query_llm_requests W prompt) as [Hg Hp].
  rewrite E in Hg, Hp. cbn [trace fst] in Hg, Hp.
  destruct (route_requests W v) as [Hg' Hp'].
  rewrite (turn_unfold _ _ _ _ E). cbn [trace fst].
  rewrite !count_app. lia.
Qed.

(** ** What the adapters answer *)



(** X11.  The crypto adapter on an answered request.  With status 200 and
    a dictionary that maps the identifier to a dictionary with a ["usd"]
    entry other than [None], it returns the capitalized identifier, ": $"
    and the price; when the dictionary has no entry for the identifier it
    returns "Unknown cryptocurrency: " and the identifier.  Neither case
    logs anything. *)
Theorem crypto_asset_answers (W : World) (q : string) (resp : response)
    (data : list (string * pyval)) :
  coin_ident (lower (strip q)) = true ->
  http_get W (coin_url (lower (strip q))) = inr resp ->
  status_code resp = 200%Z ->
  json resp = inr (PDict data) ->
  match lookup (lower (strip q)) data with
  | None =>
      crypto_asset W q
      = ([EvCall "crypto_asset"; EvGet (coin_url (lower (strip q)))],
         inr ("Unknown cryptocurrency: " ++ lower (strip q)))
  | Some entry =>
      forall price,
        dict_get entry "usd" PNone = inr price -> price <> PNone ->
        crypto_asset W q
        = ([EvCall "crypto_asset"; EvGet (coin_url (lower (strip q)))],
           inr (capitalize W (lower (strip q)) ++ ": $" ++ format_value W price))
  end.
Proof.
  intros Hid Hget Hs Hj. unfold crypto_asset.
  rewrite (re_match_coin_ident _ (coin_id_ends_clean q)), Hid.
  cbv zeta. unfold requests_get. rewrite Hget.
  cbv [bind emit lift ret try_except raise logging_exception negb].
  rewrite Hs. change (200 =? 200)%Z with true. cbv iota.
  rewrite Hj. cbn [str_in subscript_key].
  destruct (lookup (lower (strip q)) data) as [entry|]; [|reflexivity].
  intros price Hp Hn. rewrite Hp.
  destruct price; try reflexivity. contradiction.
Qed.

Lemma crypto_asset_answers_witness :
  crypto_asset online " Bitcoin "
  = ([EvCall "crypto_asset"; EvGet (coin_url "bitcoin")],
     inr "Bitcoin: $50000") /\
  crypto_asset online "ethereum"
  = ([EvCall "crypto_asset"; EvGet (coin_url "ethereum")],
     inr "Unknown cryptocurrency: ethereum").
Proof.
  split.
  - apply (crypto_asset_answers online " Bitcoin " _ _
             eq_refl eq_refl eq_refl eq_refl (PInt 50000));
      [reflexivity|discriminate].
  - exact (crypto_asset_answers online "ethereum" _ _
             eq_refl eq_refl eq_refl eq_refl).
Defined.

(** ** The results of a web search *)

Lemma first_three_length (v : pyval) (l : list pyval) :
  first_three v = inr l -> List.length l <= 3.
Proof.
  destruct v as [| | | |s|items|]; try discriminate; cbn [first_three];
    intros H; injection H as <-.
  - destruct s as [|a [|b [|c s]]]; cbn; lia.
  - destruct items as [|a [|b [|c items]]]; cbn; lia.
Qed.

Lemma search_results_of_length (l : list pyval) (rs : list search_result) :
  search_results_of l = inr rs -> List.length rs = List.length l.
Proof.
  revert rs. induction l as [|item l IH]; cbn; intros rs H.
  - now injection H as <-.
  - destruct (search_result_of item) as [e|r]; [discriminate|].
    destruct (search_results_of l) as [e|rs']; [discriminate|].
    injection H as <-. cbn. now rewrite (IH rs' eq_refl).
Qed.

(** X12.  Whatever the search service answers, a list returned by the web
    adapter has at most three results. *)
Theorem web_asset_at_most_three (W : World) (q : string)
    (found : list search_result) :
  outcome (web_asset W q) = inr (inr found) -> List.length found <= 3.
Proof.
  unfold web_asset, requests_get.
  destruct (getenv W "GOOGLE_API_KEY") as [[|c1 k1]|]; try discriminate;
    destruct (getenv W "SEARCH_ENGINE_ID") as [[|c2 k2]|]; try discriminate.
  cbv [bind emit lift ret try_except raise logging_exception outcome snd].
  destruct (http_get W _) as [e|resp]; [discriminate|].
  destruct (json resp) as [e|results]; [discriminate|].
  destruct (dict_get results "items" (PList [])) as [e|items]; [discriminate|].
  destruct (first_three items) as [e|shown] eqn:E3; [discriminate|].
  destruct (search_results_of shown) as [e|rs] eqn:Er; [discriminate|].
  intros H. injection H as <-.
  rewrite (search_results_of_length _ _ Er).
  exact (first_three_length _ _ E3).
Qed.

Lemma web_asset_at_most_three_witness :
  exists found,
    outcome (web_asset four_items "anything") = inr (inr found)
    /\ List.length found <= 3.
Proof.
  eexists. split; [reflexivity|].
  apply (web_asset_at_most_three four_items "anything"). reflexivity.
Defined.




(** ** What the parser hands over *)

Lemma string_app_nil_r (s : string) : s ++ "" = s.
Proof. induction s as [|c s IH]; [reflexivity|]. cbn. now rewrite IH. Qed.

Lemma ret_inj {A} (a b : A) : ret a = ret b -> a = b.
Proof. intros H. now injection H. Qed.

Lemma partition_spec (sep : ascii) (s b f a : string) :
  partition sep s = (b, f, a) ->
  has_char sep b = false /\ (f = "" -> b = s).
Proof.
  revert b f a. induction s as [|c s IH]; cbn [partition]; intros b f a H.
  - injection H as <- <- <-. now split.
  - destruct (Ascii.eqb c sep) eqn:Ec.
    + injection H as <- <- <-. split; [reflexivity|discriminate].
    + destruct (partition sep s) as [[b' f'] a'].
      destruct (IH b' f' a' eq_refl) as [Hb Hf].
      destruct f' as [|d f'].
      * injection H as <- <- <-. split; [|reflexivity].
        cbn. rewrite Ec. cbn. now rewrite <- (Hf eq_refl).
      * injection H as <- <- <-. split; [|discriminate].
        cbn. now rewrite Ec.
Qed.

Lemma has_char_drop (c : ascii) (n : nat) (s : string) :
  has_char c s = false -> has_char c (drop n s) = false.
Proof.
  revert s. induction n as [|n IH]; intros [|d s]; cbn; auto.
  intros H. apply orb_false_elim in H as [_ H]. now apply IH.
Qed.

Lemma parse_fallback_some (r a : string) (q : pyval) (agents : list string) :
  parse_fallback r agents = (Some a, q) ->
  In a agents /\ q = PStr (strip (drop (String.length a + 1) r)).
Proof.
  induction agents as [|agent agents IH]; cbn [parse_fallback]; [discriminate|].
  destruct (startswith (agent ++ " ") (lower r)).
  - intros H. injection H as <- <-. split; [now left|reflexivity].
  - intros H. destruct (IH H) as [Hin Hq]. split; [now right|exact Hq].
Qed.

(** X14.  Whenever the parser returns an intent for a text, the intent and
    the raw query are both free of surrounding white space and the intent
    holds no [']'].  When the text is not in the bracket form the intent
    is one of the four registered labels, so the "Unknown agent type"
    notice can only come from a bracketed label. *)
Theorem parsed_intent_wellformed (W : World) (r a q : string) :
  parse_llm_response W (PStr r) = ret (Some a, PStr q) ->
  strip a = a /\ strip q = q /\ has_char "]" a = false /\
  (startswith "[" r && has_char "]" r = false -> In a valid_agents).
Proof.
  rewrite parse_llm_response_str. unfold parse_body.
  destruct (startswith "[" r && has_char "]" r).
  - destruct (partition "]" r) as [[agent_part found] query] eqn:Ep.
    intros H. injection H as <- <-.
    destruct (partition_spec _ _ _ _ _ Ep) as [Hb _].
    repeat split; try apply strip_idem; [|discriminate].
    apply has_char_strip. exact (has_char_drop "]" 1 agent_part Hb).
  - intros H. apply ret_inj in H.
    destruct (parse_fallback_some _ _ _ _ H) as [Hin Hq].
    injection Hq as ->.
    split; [|split; [apply strip_idem|split; [|intros _; exact Hin]]];
      destruct Hin as [<-|[<-|[<-|[<-|[]]]]]; reflexivity.
Qed.

Lemma parsed_intent_wellformed_witness :
  strip "my agent" = "my agent" /\ strip "tell me" = "tell me"
  /\ has_char "]" "my agent" = false.
Proof.
  destruct (parsed_intent_wellformed offline "[ my agent ]  tell me "
              "my agent" "tell me" eq_refl) as (H1 & H2 & H3 & _).
  exact (conj H1 (conj H2 H3)).
Defined.

(** ** The cleaned query, again *)

Lemma cleaned_fixed (q : string) :
  strip (cleaned q) = cleaned q /\ lower (cleaned q) = cleaned q.
Proof.
  unfold cleaned. destruct (nonempty q); [|now split].
  split.
  - now rewrite strip_lower, strip_idem.
  - apply lower_idem.
Qed.

(** X15.  A cleaned query is in normal form: it has no surrounding white
    space, no upper-case letter that [lower] would change and no ['('] at
    all.  The normalisation the crypto adapter applies to its argument
    (strip, then lower) therefore leaves a query from the loop as it is. *)
Theorem cleaned_normal_form (q : string) :
  strip (cleaned q) = cleaned q /\
  lower (cleaned q) = cleaned q /\
  has_char "(" (cleaned q) = false /\
  lower (strip (cleaned q)) = cleaned q.
Proof.
  destruct (cleaned_fixed q) as [Hs Hl].
  split; [exact Hs|split; [exact Hl|split]].
  - unfold cleaned. destruct (nonempty q); [|reflexivity].
    rewrite has_paren_lower. apply has_char_strip, split_head_no_sep.
  - now rewrite Hs.
Qed.

(** ** From the parsed answer to the adapter *)

(** X16.  When the parser returns one of the labels [crypto_asset],
    [stock_asset], [weather_asset], the loop body calls that adapter once
    with the cleaned query and prints exactly one line, "Assistant: "
    followed by what the adapter returned. *)
Theorem route_string_adapter (W : World) (v : pyval) (label q : string)
    (method : string -> M string) :
  outcome (parse_llm_response W v) = inr (Some label, PStr q) ->
  In (label, method)
     [("crypto_asset", crypto_asset W); ("stock_asset", stock_asset W);
      ("weather_asset", weather_asset W)] ->
  exists result,
    outcome (method (cleaned q)) = inr result /\
    route W v
    = ((trace (method (cleaned q)) ++ [EvPrint ("Assistant: " ++ result)])%list,
       inr tt).
Proof.
  intros Hp Hin.
  destruct (parsed_intent_of_str _ _ _ _ Hp) as (q' & Hq & E).
  injection Hq as <-.
  assert (Hr : returns (method (cleaned q))).
  { destruct Hin as [H|[H|[H|[]]]]; injection H as <- <-;
      [apply crypto_asset_returns|apply stock_asset_returns
      |apply weather_asset_returns]. }
  destruct (returns_inr _ Hr) as (t & result & Em).
  exists result. rewrite Em. split; [reflexivity|].
  rewrite (route_parsed _ _ _ _ E).
  assert (Hd : dispatch W label (cleaned q)
               = ((t ++ [EvPrint ("Assistant: " ++ result)])%list, inr tt)).
  { unfold dispatch.
    destruct Hin as [H|[H|[H|[]]]]; injection H as <- <-;
      [change (getattr_agents W "crypto_asset") with (ret (crypto_asset W))
      |change (getattr_agents W "stock_asset") with (ret (stock_asset W))
      |change (getattr_agents W "weather_asset") with (ret (weather_asset W))];
      cbn [existsb valid_agents String.eqb Ascii.eqb Bool.eqb orb negb];
      rewrite bind_ret, Em, bind_inr; reflexivity. }
  rewrite respond_intent.
  - rewrite Hd. reflexivity.
  - destruct Hin as [H|[H|[H|[]]]]; injection H as <- _; discriminate.
Qed.

Lemma route_string_adapter_witness :
  route online (PStr "[crypto_asset] Bitcoin (BTC)")
  = ([EvCall "crypto_asset"; EvGet (coin_url "bitcoin");
      EvPrint "Assistant: Bitcoin: $50000"], inr tt).
Proof.
  destruct (route_string_adapter online (PStr "[crypto_asset] Bitcoin (BTC)")
              "crypto_asset" "Bitcoin (BTC)" (crypto_asset online)
              eq_refl (or_introl eq_refl)) as (result & Hr & E).
  injection Hr as <-. exact E.
Defined.

(** X17.  When the parser returns [crypto_asset], validation is decided by
    the cleaned query alone.  If the cleaned query is not a non-empty run
    of a-z and ['-'], the loop body prints the "Invalid cryptocurrency
    format" message and makes no request; otherwise the first thing the
    adapter does is the request for the cleaned query. *)
Theorem route_crypto_validation (W : World) (v : pyval) (q : string) :
  outcome (parse_llm_response W v) = inr (Some "crypto_asset", PStr q) ->
  if coin_ident (cleaned q)
  then exists t r,
      route W v
      = (EvCall "crypto_asset" :: EvGet (coin_url (cleaned q)) :: t, r)
  else route W v
       = ([EvCall "crypto_asset"; EvPrint ("Assistant: " ++ invalid_format)],
          inr tt).
Proof.
  intros Hp.
  destruct (parsed_intent_of_str _ _ _ _ Hp) as (q' & Hq & E).
  injection Hq as <-.
  rewrite (route_parsed _ _ _ _ E), respond_intent by discriminate.
  rewrite (try_except_returns _ _ (dispatch_returns W _ _)).
  unfold dispatch.
  change (getattr_agents W "crypto_asset") with (ret (crypto_asset W)).
  cbn [existsb valid_agents String.eqb Ascii.eqb Bool.eqb orb negb].
  rewrite bind_ret.
  pose proof (crypto_asset_validation W (cleaned q)) as Hv.
  destruct (cleaned_fixed q) as [Hs Hl]. rewrite Hs, Hl in Hv.
  destruct (coin_ident (cleaned q)).
  - destruct Hv as (t & r & Ec). rewrite Ec.
    destruct (bind_trace (EvCall "crypto_asset" :: EvGet (coin_url (cleaned q)) :: t, r)
                (fun result => print ("Assistant: " ++ result)))
      as (t' & r' & Eb).
    rewrite Eb. cbn [trace fst app]. eauto.
  - rewrite Hv. reflexivity.
Qed.

Lemma route_crypto_validation_witness :
  route offline (PStr "[crypto_asset] BTC$ (symbol)")
  = ([EvCall "crypto_asset"; EvPrint ("Assistant: " ++ invalid_format)], inr tt).
Proof.
  exact (route_crypto_validation offline (PStr "[crypto_asset] BTC$ (symbol)")
           "BTC$ (symbol)" eq_refl).
Defined.

(** ** The two definitions of the parser *)

Lemma word_char_visible (c : ascii) : word_char c && isspace c = false.
Proof. each_char c. Qed.

Lemma word_char_not_bracket (c : ascii) : word_char c && Ascii.eqb c "]" = false.
Proof. each_char c. Qed.

Lemma rstrip_cons_visible (c : ascii) (s : string) :
  isspace c = false -> rstrip (String c s) = String c (rstrip s).
Proof. intros H. cbn [rstrip]. rewrite H. now destruct (rstrip s). Qed.

Lemma rstrip_head (c d : ascii) (s t : string) :
  rstrip (String c s) = String d t -> c = d.
Proof.
  cbn [rstrip]. destruct (rstrip s); [destruct (isspace c)|]; intros H;
    try discriminate; now injection H.
Qed.

Lemma span_rstrip (s : string) :
  span word_char (rstrip s)
  = (fst (span word_char s), rstrip (snd (span word_char s))).
Proof.
  induction s as [|c s IH]; [reflexivity|].
  cbn [span]. destruct (word_char c) eqn:Ec.
  - pose proof (word_char_visible c) as Hv. rewrite Ec in Hv. cbn in Hv.
    rewrite (rstrip_cons_visible _ _ Hv). cbn [span]. rewrite Ec, IH.
    now destruct (span word_char s).
  - cbn [fst snd]. destruct (rstrip (String c s)) as [|d t] eqn:Er;
      [reflexivity|].
    rewrite <- (rstrip_head _ _ _ _ Er). cbn [span]. now rewrite Ec.
Qed.

Lemma span_parts (p : ascii -> bool) (s : string) :
  s = fst (span p s) ++ snd (span p s) /\ all_chars p (fst (span p s)) = true.
Proof.
  induction s as [|c s [IH1 IH2]]; [now split|].
  cbn [span]. destruct (p c) eqn:Ec; [|now split].
  destruct (span p s) as [w rest]. cbn in *. rewrite Ec.
  split; [now f_equal|exact IH2].
Qed.

Lemma word_no_bracket (w : string) :
  all_chars word_char w = true -> has_char "]" w = false.
Proof.
  induction w as [|c w IH]; [reflexivity|]. cbn.
  intros H. apply andb_prop in H as [Hc Hw].
  pose proof (word_char_not_bracket c) as Hb. rewrite Hc in Hb. cbn in Hb.
  now rewrite Hb, (IH Hw).
Qed.

Lemma word_rstrip (w : string) : all_chars word_char w = true -> rstrip w = w.
Proof.
  induction w as [|c w IH]; [reflexivity|]. cbn [all_chars].
  intros H. apply andb_prop in H as [Hc Hw].
  pose proof (word_char_visible c) as Hv. rewrite Hc in Hv. cbn in Hv.
  now rewrite (rstrip_cons_visible _ _ Hv), (IH Hw).
Qed.

Lemma word_strip (w : string) : all_chars word_char w = true -> strip w = w.
Proof.
  intros H. unfold strip. rewrite lstrip_clean; [now apply word_rstrip|].
  destruct w as [|c w]; [reflexivity|]. cbn in *.
  apply andb_prop in H as [Hc _].
  pose proof (word_char_visible c) as Hv. rewrite Hc in Hv. cbn in Hv.
  now rewrite Hv.
Qed.

Lemma lstrip_rstrip (s : string) : lstrip (rstrip s) = strip s.
Proof.
  unfold strip. induction s as [|c s IH]; [reflexivity|].
  destruct (isspace c) eqn:Ec.
  - cbn [lstrip rstrip]. rewrite Ec, <- IH.
    destruct (rstrip s) as [|d t]; [reflexivity|].
    cbn [lstrip]. now rewrite Ec.
  - rewrite (rstrip_cons_visible _ _ Ec). cbn [lstrip]. rewrite Ec.
    now rewrite (rstrip_cons_visible _ _ Ec).
Qed.

(** On a text that does not end in white space [(.+)$] matches the whole
    text or nothing. *)
Lemma dot_plus_end_clean (s d : string) :
  ends_clean s = true -> dot_plus_end s = Some d ->
  d = s /\ all_chars dot_char s = true.
Proof.
  unfold dot_plus_end. intros Hc.
  destruct (span_parts dot_char s) as [Hs Ha].
  destruct (span dot_char s) as [w rest]. cbn [fst snd] in *.
  destruct (nonempty w); [|discriminate]. cbn [andb].
  destruct rest as [|c rest].
  - rewrite string_app_nil_r in Hs. cbn. intros H. injection H as <-.
    now subst s.
  - destruct (String.eqb (String c rest) (String "010" "")) eqn:E;
      [|discriminate].
    apply String.eqb_eq in E. rewrite E in Hs. exfalso.
    subst s. clear - Hc. induction w as [|a w IH]; [discriminate|].
    cbn in Hc. destruct (w ++ String "010" "") eqn:Ew.
    + destruct w; discriminate.
    + apply IH. exact Hc.
Qed.

Lemma dot_plus_end_whole (s : string) :
  s <> "" -> all_chars dot_char s = true -> dot_plus_end s = Some s.
Proof.
  intros Hn Ha. unfold dot_plus_end. rewrite (span_all _ _ Ha).
  destruct s; [contradiction|reflexivity].
Qed.

Lemma match_tail_no_newline (s : string) :
  s <> "" -> all_chars dot_char s = true -> match_tail s <> None.
Proof.
  intros Hn Ha. pose proof (dot_plus_end_whole s Hn Ha) as Hd.
  destruct s as [|c s]; [contradiction|]. cbn [match_tail].
  destruct (isspace c); [destruct (match_tail s)|]; congruence.
Qed.

Lemma ends_clean_tail (c : ascii) (s : string) :
  ends_clean (String c s) = true -> isspace c = true ->
  s <> "" /\ ends_clean s = true.
Proof.
  destruct s as [|d s]; cbn.
  - intros H E. rewrite E in H. discriminate.
  - intros H _. split; [discriminate|exact H].
Qed.

(** On a text that does not end in white space, what [\s*(.+)$] captures
    is the text without its leading white space. *)
Lemma match_tail_clean (s g : string) :
  ends_clean s = true -> match_tail s = Some g -> g = lstrip s.
Proof.
  revert g. induction s as [|c s IH]; intros g Hc; [discriminate|].
  cbn [match_tail lstrip]. destruct (isspace c) eqn:Ec.
  - destruct (ends_clean_tail _ _ Hc Ec) as [Hn Hc'].
    destruct (match_tail s) as [g'|] eqn:Em.
    + intros H. injection H as <-. now apply IH.
    + intros H. destruct (dot_plus_end_clean _ _ Hc H) as [_ Ha].
      cbn in Ha. apply andb_prop in Ha as [_ Ha].
      now destruct (match_tail_no_newline s Hn Ha).
  - intros H. now destruct (dot_plus_end_clean _ _ Hc H) as [-> _].
Qed.

(** X18.  The two definitions of the parser agree where the first one
    matches: if the first definition (the regular expression, applied to
    the stripped text) finds an intent and a query in a text that does not
    begin with white space, the definition live at run time returns the
    same intent and the same query for it. *)
Theorem first_parser_agrees (W : World) (r a q : string) :
  starts_clean r = true ->
  parse_llm_response_first (PStr r) = ret (Some a, PStr q) ->
  parse_llm_response W (PStr r) = ret (Some a, PStr q).
Proof.
  intros Hsc. unfold parse_llm_response_first.
  unfold strip. rewrite (lstrip_clean _ Hsc).
  destruct r as [|c r]; [discriminate|].
  cbn [starts_clean] in Hsc. apply negb_true_iff in Hsc.
  rewrite (rstrip_cons_visible _ _ Hsc). cbn [re_match_bracket].
  destruct (Ascii.eqb c "[") eqn:Ec; [|discriminate].
  apply Ascii.eqb_eq in Ec. subst c.
  rewrite span_rstrip.
  destruct (span_parts word_char r) as [Hr Hw].
  destruct (span word_char r) as [w x]. cbn [fst snd] in *.
  destruct (rstrip x) as [|d s3] eqn:Ex; [discriminate|].
  destruct (nonempty w && Ascii.eqb d "]") eqn:En; [|discriminate].
  apply andb_prop in En as [_ Ed]. apply Ascii.eqb_eq in Ed. subst d.
  destruct x as [|e x3]; [discriminate|].
  pose proof (rstrip_head _ _ _ _ Ex) as ->.
  rewrite (rstrip_cons_visible "]" x3 eq_refl) in Ex. injection Ex as <-.
  destruct (match_tail (rstrip x3)) as [g|] eqn:Em; [|discriminate].
  intros H. apply ret_inj in H. injection H as <- <-.
  rewrite (match_tail_clean _ _ (rstrip_ends_clean x3) Em), lstrip_rstrip.
  rewrite parse_llm_response_str. unfold parse_body. subst r.
  assert (Hs : startswith "[" (String "[" (w ++ String "]" x3)) = true).
  { unfold startswith. now rewrite prefix_cons, prefix_nil. }
  rewrite Hs.
  change (String "[" (w ++ String "]" x3)) with (String "[" w ++ String "]" x3).
  rewrite has_char_app_sep. cbn [andb].
  rewrite partition_first by (cbn; exact (word_no_bracket _ Hw)).
  cbn [drop]. now rewrite (word_strip _ Hw).
Qed.

Lemma first_parser_agrees_witness :
  parse_llm_response offline (PStr "[web_asset]  Pixel 9 reviews  ")
  = ret (Some "web_asset", PStr "Pixel 9 reviews").
Proof.
  apply (first_parser_agrees offline "[web_asset]  Pixel 9 reviews  ");
    reflexivity.
Defined.

Example first_parser_differs :
  parse_llm_response_first (PStr "[my agent] hello") = ret (None, PStr "[my agent] hello")
  /\ parse_llm_response offline (PStr "[my agent] hello")
     = ret (Some "my agent", PStr "hello").
Proof. split; reflexivity. Qed.

(** ** The loop *)

Lemma main_loop_exit (W : World) (line : string) (rest : list string) :
  is_exit line = true ->
  main_loop W (line :: rest) = ([EvInput (nl ++ "User: ")], inr tt).
Proof.
  intros H. cbn [main_loop]. unfold is_exit in H. rewrite H. reflexivity.
Qed.

Lemma main_loop_step (W : World) (line : string) (rest : list string) :
  is_exit line = false ->
  main_loop W (line :: rest)
  = (emit (EvInput (nl ++ "User: ")) ;;;
     turn W (strip line) ;;; main_loop W rest).
Proof.
  intros H. cbn [main_loop]. unfold is_exit in H. now rewrite H.
Qed.

(** X19.  The loop stops at the first line that is [exit] or [quit] (in
    any case, with any surrounding white space): the lines after it are
    never read and change nothing in what the program does. *)
Theorem main_stops_at_exit (W : World) (before after : list string)
    (line : string) :
  is_exit line = true ->
  main W (before ++ line :: after) = main W (before ++ [line]).
Proof.
  intros Hx. unfold main. f_equal.
  induction before as [|l before IH]; cbn [app].
  - now rewrite !main_loop_exit.
  - destruct (is_exit l) eqn:El.
    + now rewrite !main_loop_exit.
    + now rewrite !main_loop_step, IH.
Qed.

Lemma main_stops_at_exit_witness :
  main offline ([" hello "] ++ " QUIT " :: ["never"; "read"])
  = main offline ([" hello "] ++ [" QUIT "]).
Proof.
  apply (main_stops_at_exit offline [" hello "] ["never"; "read"] " QUIT ").
  reflexivity.
Defined.



(** ** The stock and weather adapters on an answered request *)

(** X21.  The stock adapter, with its key set and the request answered by
    a dictionary (whatever the status, which it does not look at): when
    ["Global Quote"] is a dictionary with a ["05. price"] entry it returns
    the upper-cased symbol, ": $" and that price; when ["Global Quote"] is
    missing, or is a dictionary without that entry, it returns "Stock data
    not available for " and the symbol.  Nothing is logged. *)
Theorem stock_asset_answers (W : World) (q key : string) (resp : response)
    (data : list (string * pyval)) :
  getenv W "ALPHAVANTAGE_API_KEY" = Some key -> key <> "" ->
  http_get W (stock_url (upper W (strip q)) key) = inr resp ->
  json resp = inr (PDict data) ->
  let symbol := upper W (strip q) in
  let answer (text : string) :=
    stock_asset W q
    = ([EvCall "stock_asset"; EvGet (stock_url symbol key)], inr text) in
  match lookup "Global Quote" data with
  | None => answer ("Stock data not available for " ++ symbol ++ ".")
  | Some (PDict quote) =>
      match lookup "05. price" quote with
      | Some price => answer (symbol ++ ": $" ++ format_value W price)
      | None => answer ("Stock data not available for " ++ symbol ++ ".")
      end
  | Some _ => True
  end.
Proof.
  intros Hk Hn Hget Hj symbol answer. subst answer symbol. cbv beta.
  unfold stock_asset. rewrite Hk.
  destruct key as [|c key]; [contradiction|].
  cbv zeta. fold (stock_url (upper W (strip q)) (String c key)).
  unfold requests_get. rewrite Hget.
  cbv [bind emit lift ret try_except raise logging_exception].
  rewrite Hj. cbn [dict_get].
  destruct (lookup "Global Quote" data) as [[| | | | | |quote]|];
    try exact I; [|reflexivity].
  destruct quote as [|[k v] quote]; [reflexivity|].
  cbn [truthy negb str_in subscript_key].
  destruct (lookup "05. price" ((k, v) :: quote)); reflexivity.
Qed.

(** X22.  The weather adapter, with its key set and the request answered
    by a dictionary.  With a status other than 200 it returns
    "Weather Error: " and the ["message"] of the answer, "Unknown error"
    when there is none.  With status 200, a temperature under
    ["main"]["temp"] and a description in the first element of
    ["weather"], it returns the city name (the stripped location when the
    answer has no ["name"]), the temperature, the degree sign and the
    capitalized description. *)
Theorem weather_asset_answers (W : World) (q key : string) (resp : response)
    (data : list (string * pyval)) :
  getenv W "OPENWEATHER_API_KEY" = Some key -> key <> "" ->
  http_get W (weather_url (strip q) key) = inr resp ->
  json resp = inr (PDict data) ->
  (status_code resp <> 200%Z ->
   weather_asset W q
   = ([EvCall "weather_asset"; EvGet (weather_url (strip q) key)],
      inr ("Weather Error: "
           ++ format_value W match lookup "message" data with
                             | Some m => m
                             | None => PStr "Unknown error"
                             end))) /\
  (forall main_part temp first rest description,
      status_code resp = 200%Z ->
      lookup "main" data = Some (PDict main_part) ->
      lookup "temp" main_part = Some temp -> temp <> PNone ->
      lookup "weather" data = Some (PList (PDict first :: rest)) ->
      lookup "description" first = Some (PStr description) ->
      capitalize W description <> "" ->
      weather_asset W q
      = ([EvCall "weather_asset"; EvGet (weather_url (strip q) key)],
         inr (format_value W match lookup "name" data with
                             | Some n => n
                             | None => PStr (strip q)
                             end
              ++ ": " ++ format_value W temp ++ degree ++ "C, "
              ++ capitalize W description))).
Proof.
  intros Hk Hn Hget Hj.
  unfold weather_asset. rewrite Hk.
  destruct key as [|c key]; [contradiction|].
  cbv zeta. fold (weather_url (strip q) (String c key)).
  unfold requests_get. rewrite Hget.
  cbv [bind emit lift ret try_except raise logging_exception].
  split.
  - intros Hs. apply Z.eqb_neq in Hs. rewrite Hs. cbn [negb].
    rewrite Hj. reflexivity.
  - intros main_part temp first rest description Hs Hm Ht Htn Hw Hd Hc.
    rewrite Hs. change (200 =? 200)%Z with true. cbn [negb].
    rewrite Hj. cbn [dict_get]. rewrite Hm. cbn [dict_get].
    rewrite Ht, Hw. cbn [subscript_zero dict_get]. rewrite Hd.
    cbn [capitalize_value].
    destruct temp; try contradiction;
      (destruct (capitalize W description) eqn:Ec; [contradiction|]);
      reflexivity.
Qed.

Lemma stock_asset_answers_witness :
  stock_asset market " tsla "
  = ([EvCall "stock_asset"; EvGet (stock_url "TSLA" "key")],
     inr "TSLA: $250.10").
Proof.
  exact (stock_asset_answers market " tsla " "key" _ _
           eq_refl ltac:(discriminate) eq_refl eq_refl).
Defined.

Lemma weather_asset_answers_witness :
  weather_asset market " tokyo "
  = ([EvCall "weather_asset"; EvGet (weather_url "tokyo" "key")],
     inr ("Tokyo: 21" ++ degree ++ "C, Clear sky")).
Proof.
  apply (proj2 (weather_asset_answers market " tokyo " "key" _ _
                  eq_refl ltac:(discriminate) eq_refl eq_refl)
           [("temp", PInt 21)] (PInt 21) [("description", PStr "clear sky")]
           [] "clear sky");
    try reflexivity; discriminate.
Defined.

(** ** The summarizer and the display of a search *)

Lemma summarize_results_unfold (W : World) (q : string)
    (results : list search_result) :
  summarize_results W q results
  = (emit (EvCall "summarize_results") ;;;
     try_except
       (response <- requests_post W llm_endpoint (summary_payload W q results) ;;
        raise_for_status response ;;; message_content response)
       (fun e => logging_exception "Summarization error" ;;;
                 ret (PStr ("Summarization Error: " ++ str_exn W e)))).
Proof. reflexivity. Qed.

(** X23.  The summarizer posts one request whose user message is the
    results joined by newlines, each as "title: snippet", under the system
    message "Summarize web results about <query> in 3 concise points".
    When the request raises [e] it logs and returns "Summarization Error: "
    with the text of [e]; when it is answered with an accepted status and a
    well-formed chat completion it returns the message content. *)
Theorem summarize_results_answers (W : World) (q : string)
    (results : list search_result) :
  (forall e,
      http_post W llm_endpoint (summary_payload W q results) = inl e ->
      summarize_results W q results
      = ([EvCall "summarize_results";
          EvPost llm_endpoint (summary_payload W q results);
          EvLog "Summarization error"],
         inr (PStr ("Summarization Error: " ++ str_exn W e)))) /\
  (forall resp body content,
      http_post W llm_endpoint (summary_payload W q results) = inr resp ->
      status_ok resp = true ->
      json resp = inr body ->
      chat_body body content ->
      summarize_results W q results
      = ([EvCall "summarize_results";
          EvPost llm_endpoint (summary_payload W q results)],
         inr content)).
Proof.
  rewrite summarize_results_unfold.
  unfold requests_post, raise_for_status, message_content. split.
  - intros e Hp. rewrite Hp. reflexivity.
  - intros resp body content Hp Hs Hj (first & rest & message & H1 & H2 & H3).
    unfold status_ok in Hs. apply negb_true_iff in Hs. rewrite Hp.
    cbv [bind emit lift ret try_except raise].
    rewrite Hs, Hj, H1. cbn [subscript_zero]. rewrite H2, H3.
    reflexivity.
Qed.

Lemma summarize_results_answers_witness :
  summarize_results market "tesla"
    [{| title := PStr "A"; link := PStr "a"; snippet := PStr "first" |};
     {| title := PStr "B"; link := PStr "b"; snippet := PStr "second" |}]
  = ([EvCall "summarize_results";
      EvPost llm_endpoint
        (chat_payload "Summarize web results about tesla in 3 concise points"
           ("A: first" ++ nl ++ "B: second") 0.3%float 300);
      EvLog "Summarization error"],
     inr (PStr "Summarization Error: timed out")).
Proof.
  exact (proj1 (summarize_results_answers market "tesla" _)
           (LibraryError RequestException "timed out") eq_refl).
Defined.

Lemma print_sources_trace (W : World) (results : list search_result) (idx : nat) :
  print_sources W idx results
  = (map (source_line W) (combine (seq idx (List.length results)) results),
     inr tt).
Proof.
  revert idx. induction results as [|r rs IH]; intros idx; [reflexivity|].
  cbn [print_sources]. unfold print. rewrite bind_emit, IH. reflexivity.
Qed.

(** X24.  When the parser returns [web_asset] and the web adapter returns a
    non-empty list, the loop body calls the summarizer once with the
    cleaned query and that list, then prints, in this order: the line
    "Assistant: Here's what I found about <query>:", the summary, a blank
    line and "Sources:", and one line per result, numbered from 1 in the
    order of the list, with its title and its link. *)
Theorem web_results_display (W : World) (v : pyval) (q : string)
    (t t' : list event) (found : list search_result) (summary : pyval) :
  outcome (parse_llm_response W v) = inr (Some "web_asset", PStr q) ->
  web_asset W (cleaned q) = (t, inr (inr found)) ->
  found <> [] ->
  summarize_results W (cleaned q) found = (t', inr summary) ->
  route W v
  = ((t ++ t'
      ++ [EvPrint ("Assistant: Here's what I found about " ++ cleaned q ++ ":");
          EvPrint (format_value W summary);
          EvPrint (nl ++ "Sources:")]
      ++ map (source_line W) (combine (seq 1 (List.length found)) found))%list,
     inr tt).
Proof.
  intros Hp Hw Hn Hs.
  destruct (parsed_intent_of_str _ _ _ _ Hp) as (q' & Hq & E).
  injection Hq as <-.
  rewrite (route_parsed _ _ _ _ E), respond_intent by discriminate.
  rewrite (try_except_returns _ _ (dispatch_returns W _ _)).
  unfold dispatch.
  change (existsb (String.eqb "web_asset") valid_agents) with true.
  change (String.eqb "web_asset" "web_asset") with true.
  cbn [negb]. rewrite Hw, bind_inr.
  destruct found as [|r found]; [contradiction|].
  rewrite Hs, bind_inr. unfold print at 1 2 3.
  rewrite !bind_emit, print_sources_trace. reflexivity.
Qed.

Lemma web_results_display_witness :
  route four_items (PStr "[web_asset] Pixel 9 (reviews)")
  = ([EvCall "web_asset";
      EvGet "https://www.googleapis.com/customsearch/v1?key=key&cx=key&q=pixel 9";
      EvCall "summarize_results";
      EvPost llm_endpoint
        (chat_payload "Summarize web results about pixel 9 in 3 concise points"
           ("A: " ++ nl ++ "No Title: b" ++ nl ++ "C: ") 0.3%float 300);
      EvLog "Summarization error";
      EvPrint "Assistant: Here's what I found about pixel 9:";
      EvPrint "Summarization Error: timed out";
      EvPrint (nl ++ "Sources:");
      EvPrint ("1. A" ++ nl ++ "   a");
      EvPrint ("2. No Title" ++ nl ++ "   No Link");
      EvPrint ("3. C" ++ nl ++ "   No Link")], inr tt).
Proof.
  exact (web_results_display four_items (PStr "[web_asset] Pixel 9 (reviews)")
           "Pixel 9 (reviews)"
           [EvCall "web_asset";
            EvGet "https://www.googleapis.com/customsearch/v1?key=key&cx=key&q=pixel 9"]
           [EvCall "summarize_results";
            EvPost llm_endpoint
              (chat_payload
                 "Summarize web results about pixel 9 in 3 concise points"
                 ("A: " ++ nl ++ "No Title: b" ++ nl ++ "C: ") 0.3%float 300);
            EvLog "Summarization error"]
           [{| title := PStr "A"; link := PStr "a"; snippet := PStr "" |};
            {| title := PStr "No Title"; link := PStr "No Link";
               snippet := PStr "b" |};
            {| title := PStr "C"; link := PStr "No Link"; snippet := PStr "" |}]
           (PStr "Summarization Error: timed out")
           eq_refl eq_refl ltac:(discriminate) eq_refl).
Defined.
